(** * Audio Unit effect host: a shallow embedding and its properties

    The development follows [src/effects/audiounits/AudioUnitWrapper.cpp]
    (which also carries the older [AudioUnitEffect.cpp]).  The native
    plug-in, the configuration store of the effect host, CoreFoundation and
    the wxWidgets string helpers are outside the program: they appear here
    as interfaces (type classes), and every host function is written over
    an arbitrary implementation of them.  Plug-in state is passed
    explicitly: a call that may change the plug-in returns the new state. *)

From stdpp Require Import gmap strings list fin_maps.
From Stdlib Require Import ZArith NArith Lia.
From Stdlib.Strings Require Import Byte.

Local Open Scope N_scope.

(** ** Platform types *)

(** [OSStatus] is a signed 32-bit result code; [noErr] is zero. *)
Definition OSStatus := Z.
Definition noErr : OSStatus := 0%Z.

(** The test [if (result)] / [result != noErr] of the source. *)
Definition failed (result : OSStatus) : bool := negb (Z.eqb result noErr).

(** [UInt32], [OSType] and [AudioUnitParameterID] are unsigned 32-bit
    words, kept as [N] with the wrap-around written out. *)
Definition UInt32 := N.
Definition OSType := N.
Definition AudioUnitParameterID := N.
Definition wrap32 (n : N) : N := n mod 2 ^ 32.

(** [size_t] values (frame counts, channel counts) are natural numbers. *)
Definition size_t := nat.

Inductive AudioUnitScope :=
| kAudioUnitScope_Global
| kAudioUnitScope_Input
| kAudioUnitScope_Output.

(** [AUChannelInfo]: two signed 16-bit channel counts. *)
Record AUChannelInfo := mkAUChannelInfo {
  inChannels : Z;
  outChannels : Z
}.

(** ** External interfaces *)

(** Floating point is not interpreted: [float] and [Float64] are abstract
    carriers with the operations the host applies to them. *)
Class Numerics := {
  Float32 : Type;
  Float64 : Type;
  f32_zero : Float32;                      (* [0.0f], also [value = {}] *)
  f32_add : Float32 -> Float32 -> Float32; (* [+=] on samples *)
  f32_of_f64 : Float64 -> Float32;         (* [AudioUnitParameterValue value = d] *)
  f64_zero : Float64;
  f64_add : Float64 -> Float64 -> Float64;
  f64_mul : Float64 -> Float64 -> Float64;
  f64_of_size_t : size_t -> Float64;
  sampleCount_of_f64 : Float64 -> Z        (* [sampleCount( double )] *)
}.

(** [wxString] with the conversions the host uses. *)
Class WxStrings := {
  wxString : Type;
  wxT : string -> wxString;                       (* string literals *)
  wxString_FromUTF8 : list byte -> wxString;      (* [wxString::FromUTF8(p, len)] *)
  wxString_ToUTF8 : wxString -> list byte;        (* [ToUTF8()], without the final NUL *)
  wxBase64Encode : list byte -> wxString;
  wxBase64Decode : wxString -> list byte;
  wxFileNameFromPath : wxString -> wxString
}.

Definition wxEmptyString `{WxStrings} : wxString := wxT "".

(** ** AudioUnitEffectsModule: four-character codes *)

Module AudioUnitEffectsModule.
Section OSTypes.
Context `{WxStrings}.

(** The byte of a 32-bit word that a [char] access reads. *)
Definition byte_of_N (n : N) : byte :=
  default "000"%byte (Byte.of_N (n mod 256)).

(** [(char * )&rev] read for four bytes: the object representation of a
    32-bit word on the little-endian machines the Audio Unit host runs
    on, lowest byte first. *)
Definition object_bytes (rev : OSType) : list byte :=
  [ byte_of_N rev;
    byte_of_N (N.shiftr rev 8);
    byte_of_N (N.shiftr rev 16);
    byte_of_N (N.shiftr rev 24) ].

(** The expression that reverses the four bytes of [type]. *)
Definition swap_bytes (type : OSType) : OSType :=
  wrap32
    (N.lor (N.lor (N.lor (N.shiftr (N.land type 0xff000000) 24)
                         (N.shiftr (N.land type 0x00ff0000) 8))
                  (wrap32 (N.shiftl (N.land type 0x0000ff00) 8)))
           (wrap32 (N.shiftl (N.land type 0x000000ff) 24))).

Definition FromOSType (type : OSType) : wxString :=
  let rev : OSType := swap_bytes type in
  wxString_FromUTF8 (object_bytes rev).

(** [buf.data()[i]]: the character buffer holds the UTF-8 bytes followed
    by a terminating NUL; an index past the terminator is outside the
    buffer, and the model then gives no result. *)
Definition wxCharBuffer_data (type : wxString) : list byte :=
  wxString_ToUTF8 type ++ ["000"%byte].

(** The expression that packs four characters, first one highest. *)
Definition pack_bytes (b0 b1 b2 b3 : byte) : OSType :=
  wrap32
    (N.lor (N.lor (N.lor (N.shiftl (Byte.to_N b0) 24)
                         (N.shiftl (Byte.to_N b1) 16))
                  (N.shiftl (Byte.to_N b2) 8))
           (Byte.to_N b3)).

Definition ToOSType (type : wxString) : option OSType :=
  let buf := wxCharBuffer_data type in
  b0 ← buf !! 0%nat;
  b1 ← buf !! 1%nat;
  b2 ← buf !! 2%nat;
  b3 ← buf !! 3%nat;
  let rev : OSType := pack_bytes b0 b1 b2 b3 in
  Some rev.
End OSTypes.
End AudioUnitEffectsModule.

(** ** The native component, CoreFoundation and the effect host *)

(** One entry of an [AudioBufferList]: [mData] is the run of samples the
    pointer designates. *)
Record AudioBuffer `{Numerics} := mkAudioBuffer {
  mNumberChannels : UInt32;
  mDataByteSize : UInt32;
  mData : list Float32
}.
Arguments mkAudioBuffer {_} _ _ _.

(** [AudioStreamBasicDescription] as [SetRateAndChannels] fills it: linear
    PCM, native packed float, non-interleaved. *)
Record AudioStreamBasicDescription `{Numerics} := mkASBD {
  asbd_mSampleRate : Float64;
  asbd_mBytesPerPacket : UInt32;
  asbd_mFramesPerPacket : UInt32;
  asbd_mBytesPerFrame : UInt32;
  asbd_mChannelsPerFrame : UInt32;
  asbd_mBitsPerChannel : UInt32;
  asbd_mReserved : UInt32
}.
Arguments mkASBD {_} _ _ _ _ _ _ _.

Inductive CFPropertyListFormat :=
| kCFPropertyListXMLFormat_v1_0
| kCFPropertyListBinaryFormat_v1_0.

(** [#define PRESET_FORMAT kCFPropertyListBinaryFormat_v1_0] *)
Definition PRESET_FORMAT : CFPropertyListFormat :=
  kCFPropertyListBinaryFormat_v1_0.

(** CoreFoundation property lists and their serialisation.  A [CFDataRef]
    is its byte sequence; a creation function that returns NULL gives
    [None]. *)
Class CoreFoundation := {
  CFPropertyListRef : Type;
  CFPropertyListCreateData :
    CFPropertyListRef -> CFPropertyListFormat -> option (list byte);
  CFDataCreateWithBytesNoCopy : list byte -> option (list byte);
  CFPropertyListCreateWithData : list byte -> option CFPropertyListRef
}.

(** The properties the host sets, with their payload. *)
Inductive AudioUnitPropertyValue `{Numerics} `{WxStrings} `{CoreFoundation} :=
| kAudioUnitProperty_SampleRate (rate : Float64)
| kAudioUnitProperty_StreamFormat (format : AudioStreamBasicDescription)
| kAudioUnitProperty_SetRenderCallback
| kAudioUnitProperty_PresentPreset (presetNumber : Z) (presetName : wxString)
| kAudioUnitProperty_ClassInfo (content : CFPropertyListRef).

(** The Audio Unit SDK over an abstract component state [AudioUnit].
    A query returns its status and what it wrote; a call that can change
    the component also returns the new state. *)
Class AudioUnitSDK `{Numerics} `{WxStrings} `{CoreFoundation} := {
  AudioUnit : Type;
  AudioUnitParameterInfo : Type;

  AudioUnitGetParameter :
    AudioUnit -> AudioUnitParameterID -> OSStatus * Float32;
  AudioUnitSetParameter :
    AudioUnit -> AudioUnitParameterID -> Float32 -> OSStatus * AudioUnit;

  (* kAudioUnitProperty_ParameterInfo, element [parmID] *)
  GetProperty_ParameterInfo :
    AudioUnit -> AudioUnitParameterID -> OSStatus * AudioUnitParameterInfo;
  (* the name carried by the info: [cfNameString] or [name] *)
  ParameterInfo_rawName : AudioUnitParameterInfo -> wxString;
  wxString_empty : wxString -> bool;
  (* the bracketed name with ids and clump, built from the raw name *)
  ParameterInfo_extendedName :
    AudioUnit -> AudioUnitParameterInfo -> AudioUnitParameterID -> wxString;
  ParameterInfo_clumpedName :
    AudioUnit -> AudioUnitParameterInfo -> wxString;

  (* kAudioUnitProperty_ParameterList: byte size, then the ids *)
  GetPropertyInfo_ParameterList : AudioUnit -> OSStatus * UInt32;
  GetProperty_ParameterList :
    AudioUnit -> UInt32 -> OSStatus * list AudioUnitParameterID;

  (* kAudioUnitProperty_SupportedNumChannels: byte size, then the table *)
  GetPropertyInfo_SupportedNumChannels : AudioUnit -> OSStatus * UInt32;
  GetProperty_SupportedNumChannels :
    AudioUnit -> UInt32 -> OSStatus * (UInt32 * list AUChannelInfo);

  (* kAudioUnitProperty_Latency: the caller's variable before and after *)
  GetProperty_Latency : AudioUnit -> Float64 -> OSStatus * Float64;
  (* kAudioUnitProperty_ClassInfo: the pointer left in [content] *)
  GetProperty_ClassInfo : AudioUnit -> OSStatus * CFPropertyListRef;

  AudioUnitSetProperty :
    AudioUnit -> AudioUnitPropertyValue -> AudioUnitScope ->
    OSStatus * AudioUnit;
  AudioUnitInitialize : AudioUnit -> OSStatus * AudioUnit;
  AudioUnitUninitialize : AudioUnit -> OSStatus * AudioUnit;
  AudioUnitReset : AudioUnit -> OSStatus * AudioUnit;

  (* [AudioUnitRender] at sample time [t] for [n] frames: the component
     pulls the input buffers through the render callback and fills the
     output list; the result carries the new content of each output. *)
  AudioUnitRender :
    AudioUnit -> Float64 -> UInt32 -> list AudioBuffer -> list AudioBuffer ->
    OSStatus * list (list Float32) * AudioUnit;

  (* [AUParameterListenerNotify]; [None] is kAUParameterListener_AnyParameter *)
  AUParameterListenerNotify :
    AudioUnit -> option AudioUnitParameterID -> AudioUnit
}.

(** The effect host's private configuration, and the parser of the flat
    [name=value] parameter text ([CommandParameters]). *)
Class EffectHostInterface `{Numerics} `{WxStrings} := {
  Host : Type;
  (* [Some v]: the key exists and holds [v]; [None]: the call returns false *)
  GetPrivateConfig : Host -> wxString -> wxString -> option wxString;
  SetPrivateConfig : Host -> wxString -> wxString -> wxString -> bool * Host;
  RemovePrivateConfig : Host -> wxString -> wxString -> bool * Host;

  CommandParameters : Type;
  CommandParameters_SetParameters : wxString -> bool * CommandParameters;
  CommandParameters_Read : CommandParameters -> wxString -> option Float64
}.

(** [#define PRESET_KEY wxT("Data")] *)
Definition PRESET_KEY `{WxStrings} : wxString := wxT "Data".

(** ** AudioUnitWrapper: the settings cache *)

Module AudioUnitWrapper.
Section Wrapper.
Context `{AudioUnitSDK}.

(** [AudioUnitEffectSettings::values]: [std::map] from parameter id to
    value. *)
Record AudioUnitEffectSettings := mkSettings {
  values : gmap AudioUnitParameterID Float32
}.

(** Modelled from the spec: [AudioUnitEffectSettings::ResetValues] is
    declared in AudioUnitWrapper.h, which is not among the sources.  The
    cache is zero-initialised: every value already in the map is set to
    zero, and an id whose query then fails keeps that reset default. *)
Definition ResetValues (settings : AudioUnitEffectSettings)
  : AudioUnitEffectSettings :=
  mkSettings ((fun _ => f32_zero) <$> values settings).

(** The wrapper: the component and the list of its parameter ids
    ([mParameters], a possibly null array). *)
Record AudioUnitWrapper := mkWrapper {
  mUnit : AudioUnit;
  mParameters : option (list AudioUnitParameterID)
}.

Record ParameterInfo := mkParameterInfo {
  mName : option wxString
}.

(** [ParameterInfo::ParameterInfo(mUnit, parmID)]: no name when the
    info property cannot be read. *)
Definition ParameterInfo_ctor (unit : AudioUnit) (parmID : AudioUnitParameterID)
  : ParameterInfo :=
  let '(result, mInfo) := GetProperty_ParameterInfo unit parmID in
  if failed result then mkParameterInfo None
  else mkParameterInfo (Some (ParameterInfo_extendedName unit mInfo parmID)).

(** [ForEachParameter]: the visitor sees the component and the state it
    captured by reference, and tells whether to go on. *)
Section ForEach.
Context {S : Type}.
Definition ParameterVisitor :=
  ParameterInfo -> AudioUnitParameterID -> AudioUnit * S ->
  bool * (AudioUnit * S).

Fixpoint ForEachParameter_loop (visitor : ParameterVisitor)
    (ids : list AudioUnitParameterID) (st : AudioUnit * S) : AudioUnit * S :=
  match ids with
  | [] => st
  | ID :: rest =>
      let pi := ParameterInfo_ctor (fst st) ID in
      let '(go_on, st') := visitor pi ID st in
      if go_on then ForEachParameter_loop visitor rest st' else st'
  end.

Definition ForEachParameter (w : AudioUnitWrapper)
    (visitor : ParameterVisitor) (s : S) : AudioUnit * S :=
  match mParameters w with
  | None => (mUnit w, s)
  | Some ids => ForEachParameter_loop visitor ids (mUnit w, s)
  end.
End ForEach.

Definition FetchSettings_visitor : @ParameterVisitor AudioUnitEffectSettings :=
  fun pi ID '(unit, settings) =>
    match mName pi with
    | None => (true, (unit, settings))
    | Some _ =>
        let '(result, value) := AudioUnitGetParameter unit ID in
        if failed result then (true, (unit, settings))
        else (true, (unit, mkSettings (<[ID := value]> (values settings))))
    end.

Definition FetchSettings (w : AudioUnitWrapper)
    (settings : AudioUnitEffectSettings) : bool * AudioUnitEffectSettings :=
  let settings := ResetValues settings in
  let '(_, settings) := ForEachParameter w FetchSettings_visitor settings in
  (true, settings).

Definition StoreSettings_visitor (settings : AudioUnitEffectSettings)
  : @ParameterVisitor unit :=
  fun pi ID '(unit, tt) =>
    match mName pi with
    | Some _ =>
        match values settings !! ID with
        | Some value =>
            let '(result, unit') := AudioUnitSetParameter unit ID value in
            if failed result then (true, (unit', tt)) else (true, (unit', tt))
        | None => (true, (unit, tt))
        end
    | None => (true, (unit, tt))
    end.

Definition StoreSettings (w : AudioUnitWrapper)
    (settings : AudioUnitEffectSettings) : bool * AudioUnitWrapper :=
  let '(unit, _) := ForEachParameter w (StoreSettings_visitor settings) tt in
  (true, mkWrapper unit (mParameters w)).
End Wrapper.
End AudioUnitWrapper.

(** ** AudioUnitEffect: channels, latency, rendering, presets *)

Module AudioUnitEffect.
Section Effect.
Context `{AudioUnitSDK} `{!EffectHostInterface}.

(** The members of [AudioUnitEffect] that the modelled functions read or
    write.  [mSampleTime] is [mTimeStamp.mSampleTime].  [mInputList] and
    [mOutputList] are the two [ArrayOf<AudioBufferList>]: [None] is the
    null array (never allocated, or reset), and an allocated list holds
    one entry for each buffer it was allocated for, its length being
    what [mNumberBuffers] records; an entry is [None] until it is
    written, since the allocation does not initialise it.  A slave is an
    effect of its own, owned by its master through [mSlaves]. *)
Inductive AudioUnitEffect := mkEffect {
  mUnit : AudioUnit;
  mSampleRate : Float64;
  mAudioIns : nat;
  mAudioOuts : nat;
  mBlockSize : nat;
  mUseLatency : bool;
  mLatencyDone : bool;
  mReady : bool;
  mUnitInitialized : bool;
  mSampleTime : Float64;
  mInputList : option (list (option AudioBuffer));
  mOutputList : option (list (option AudioBuffer));
  mMasterIn : list (list Float32);
  mMasterOut : list (list Float32);
  mNumSamples : size_t;
  mSlaves : list AudioUnitEffect
}.

Definition set_mUnit (e : AudioUnitEffect) (u : AudioUnit) :=
  mkEffect u (mSampleRate e) (mAudioIns e) (mAudioOuts e) (mBlockSize e)
    (mUseLatency e) (mLatencyDone e) (mReady e) (mUnitInitialized e)
    (mSampleTime e) (mInputList e) (mOutputList e) (mMasterIn e)
    (mMasterOut e) (mNumSamples e) (mSlaves e).
Definition set_channels (e : AudioUnitEffect) (ins outs : nat) :=
  mkEffect (mUnit e) (mSampleRate e) ins outs (mBlockSize e)
    (mUseLatency e) (mLatencyDone e) (mReady e) (mUnitInitialized e)
    (mSampleTime e) (mInputList e) (mOutputList e) (mMasterIn e)
    (mMasterOut e) (mNumSamples e) (mSlaves e).
Definition set_mLatencyDone (e : AudioUnitEffect) (b : bool) :=
  mkEffect (mUnit e) (mSampleRate e) (mAudioIns e) (mAudioOuts e)
    (mBlockSize e) (mUseLatency e) b (mReady e) (mUnitInitialized e)
    (mSampleTime e) (mInputList e) (mOutputList e) (mMasterIn e)
    (mMasterOut e) (mNumSamples e) (mSlaves e).
Definition set_mReady (e : AudioUnitEffect) (b : bool) :=
  mkEffect (mUnit e) (mSampleRate e) (mAudioIns e) (mAudioOuts e)
    (mBlockSize e) (mUseLatency e) (mLatencyDone e) b (mUnitInitialized e)
    (mSampleTime e) (mInputList e) (mOutputList e) (mMasterIn e)
    (mMasterOut e) (mNumSamples e) (mSlaves e).
Definition set_mUnitInitialized (e : AudioUnitEffect) (b : bool) :=
  mkEffect (mUnit e) (mSampleRate e) (mAudioIns e) (mAudioOuts e)
    (mBlockSize e) (mUseLatency e) (mLatencyDone e) (mReady e) b
    (mSampleTime e) (mInputList e) (mOutputList e) (mMasterIn e)
    (mMasterOut e) (mNumSamples e) (mSlaves e).
Definition set_mSampleTime (e : AudioUnitEffect) (t : Float64) :=
  mkEffect (mUnit e) (mSampleRate e) (mAudioIns e) (mAudioOuts e)
    (mBlockSize e) (mUseLatency e) (mLatencyDone e) (mReady e)
    (mUnitInitialized e) t (mInputList e) (mOutputList e) (mMasterIn e)
    (mMasterOut e) (mNumSamples e) (mSlaves e).
Definition set_lists (e : AudioUnitEffect)
    (i o : option (list (option AudioBuffer))) :=
  mkEffect (mUnit e) (mSampleRate e) (mAudioIns e) (mAudioOuts e)
    (mBlockSize e) (mUseLatency e) (mLatencyDone e) (mReady e)
    (mUnitInitialized e) (mSampleTime e) i o (mMasterIn e)
    (mMasterOut e) (mNumSamples e) (mSlaves e).
Definition set_mMasterIn (e : AudioUnitEffect) (m : list (list Float32)) :=
  mkEffect (mUnit e) (mSampleRate e) (mAudioIns e) (mAudioOuts e)
    (mBlockSize e) (mUseLatency e) (mLatencyDone e) (mReady e)
    (mUnitInitialized e) (mSampleTime e) (mInputList e) (mOutputList e) m
    (mMasterOut e) (mNumSamples e) (mSlaves e).
Definition set_mMasterOut (e : AudioUnitEffect) (m : list (list Float32)) :=
  mkEffect (mUnit e) (mSampleRate e) (mAudioIns e) (mAudioOuts e)
    (mBlockSize e) (mUseLatency e) (mLatencyDone e) (mReady e)
    (mUnitInitialized e) (mSampleTime e) (mInputList e) (mOutputList e)
    (mMasterIn e) m (mNumSamples e) (mSlaves e).
Definition set_mNumSamples (e : AudioUnitEffect) (n : size_t) :=
  mkEffect (mUnit e) (mSampleRate e) (mAudioIns e) (mAudioOuts e)
    (mBlockSize e) (mUseLatency e) (mLatencyDone e) (mReady e)
    (mUnitInitialized e) (mSampleTime e) (mInputList e) (mOutputList e)
    (mMasterIn e) (mMasterOut e) n (mSlaves e).
Definition set_mSlaves (e : AudioUnitEffect) (s : list AudioUnitEffect) :=
  mkEffect (mUnit e) (mSampleRate e) (mAudioIns e) (mAudioOuts e)
    (mBlockSize e) (mUseLatency e) (mLatencyDone e) (mReady e)
    (mUnitInitialized e) (mSampleTime e) (mInputList e) (mOutputList e)
    (mMasterIn e) (mMasterOut e) (mNumSamples e) s.

(** *** GetChannelCounts *)

(** The eight flags of [GetChannelCounts], in declaration order. *)
Record ChannelFlags := mkFlags {
  haven2m : bool;   (* nothing -> mono *)
  haven2s : bool;   (* nothing -> stereo *)
  havem2n : bool;   (* mono -> nothing *)
  haves2n : bool;   (* stereo -> nothing *)
  havem2m : bool;   (* mono -> mono *)
  haves2s : bool;   (* stereo -> stereo *)
  havem2s : bool;   (* mono -> stereo *)
  haves2m : bool    (* stereo -> mono *)
}.

Definition no_flags : ChannelFlags :=
  mkFlags false false false false false false false false.

(** The three-way wildcard resolution at the head of the loop body. *)
Definition resolve_wildcards (ic oc : Z) : Z * Z :=
  if (ic <? 0)%Z && (0 <=? oc)%Z then (2, oc)%Z
  else if (0 <=? ic)%Z && (oc <? 0)%Z then (ic, 2)%Z
  else if (ic <? 0)%Z && (oc <? 0)%Z then (2, 2)%Z
  else (ic, oc).

(** One turn of the loop over the channel table. *)
Definition scan_entry (f : ChannelFlags) (ci : AUChannelInfo) : ChannelFlags :=
  let '(ic, oc) := resolve_wildcards (inChannels ci) (outChannels ci) in
  if (ic =? 2)%Z && (oc =? 2)%Z then
    mkFlags (haven2m f) (haven2s f) (havem2n f) (haves2n f) (havem2m f) true (havem2s f) (haves2m f)
  else if (ic =? 1)%Z && (oc =? 1)%Z then
    mkFlags (haven2m f) (haven2s f) (havem2n f) (haves2n f) true (haves2s f) (havem2s f) (haves2m f)
  else if (ic =? 1)%Z && (oc =? 2)%Z then
    mkFlags (haven2m f) (haven2s f) (havem2n f) (haves2n f) (havem2m f) (haves2s f) true (haves2m f)
  else if (ic =? 2)%Z && (oc =? 1)%Z then
    mkFlags (haven2m f) (haven2s f) (havem2n f) (haves2n f) (havem2m f) (haves2s f) (havem2s f) true
  else if (ic =? 0)%Z && (oc =? 2)%Z then
    mkFlags (haven2m f) true (havem2n f) (haves2n f) (havem2m f) (haves2s f) (havem2s f) (haves2m f)
  else if (ic =? 0)%Z && (oc =? 1)%Z then
    mkFlags true (haven2s f) (havem2n f) (haves2n f) (havem2m f) (haves2s f) (havem2s f) (haves2m f)
  else if (ic =? 1)%Z && (oc =? 0)%Z then
    mkFlags (haven2m f) (haven2s f) true (haves2n f) (havem2m f) (haves2s f) (havem2s f) (haves2m f)
  else if (ic =? 2)%Z && (oc =? 0)%Z then
    mkFlags (haven2m f) (haven2s f) (havem2n f) true (havem2m f) (haves2s f) (havem2s f) (haves2m f)
  else f.

(** The final cascade; the counts were preset to 2 and 2. *)
Definition choose_counts (f : ChannelFlags) : nat * nat :=
  if haves2s f then (2, 2)%nat
  else if havem2m f then (1, 1)%nat
  else if havem2s f then (1, 2)%nat
  else if haves2m f then (2, 1)%nat
  else if haven2m f then (0, 1)%nat
  else if haven2s f then (0, 2)%nat
  else if haves2n f then (2, 0)%nat
  else if havem2n f then (1, 0)%nat
  else (2, 2)%nat.

(** The part of [GetChannelCounts] after the table was read: [info] is
    the table, [dataSize] its size in bytes, [sizeof(AUChannelInfo)] is 4. *)
Definition negotiate (dataSize : UInt32) (info : list AUChannelInfo) : nat * nat :=
  choose_counts
    (foldl scan_entry no_flags (take (N.to_nat (dataSize / 4)) info)).

Definition GetChannelCounts (e : AudioUnitEffect) : AudioUnitEffect :=
  let '(result, dataSize) := GetPropertyInfo_SupportedNumChannels (mUnit e) in
  if failed result then set_channels e 2 2
  else
    let '(result, (dataSize, info)) :=
      GetProperty_SupportedNumChannels (mUnit e) dataSize in
    if failed result then set_channels e 2 2
    else
      let '(ins, outs) := negotiate dataSize info in
      set_channels e ins outs.

(** *** Initialisation and latency *)

Definition streamFormat (rate : Float64) (channels : nat)
  : AudioStreamBasicDescription :=
  mkASBD rate 4 1 4 (wrap32 (N.of_nat channels)) (4 * 8) 0.

(** [SetRateAndChannels]: every property call that fails ends the
    function with [false], leaving the unit uninitialised. *)
Definition SetRateAndChannels (e : AudioUnitEffect) : bool * AudioUnitEffect :=
  let e :=
    if mUnitInitialized e
    then set_mUnitInitialized
           (set_mUnit e (snd (AudioUnitUninitialize (mUnit e)))) false
    else e in
  let rate := mSampleRate e in
  let '(result, u) :=
    AudioUnitSetProperty (mUnit e) (kAudioUnitProperty_SampleRate rate)
      kAudioUnitScope_Global in
  let e := set_mUnit e u in
  if failed result then (false, e) else
  let input_scope (e : AudioUnitEffect) : bool * AudioUnitEffect :=
    if (0 <? mAudioIns e)%nat then
      let '(result, u) :=
        AudioUnitSetProperty (mUnit e) (kAudioUnitProperty_SampleRate rate)
          kAudioUnitScope_Input in
      let e := set_mUnit e u in
      if failed result then (false, e) else
      let '(result, u) :=
        AudioUnitSetProperty (mUnit e)
          (kAudioUnitProperty_StreamFormat (streamFormat rate (mAudioIns e)))
          kAudioUnitScope_Input in
      let e := set_mUnit e u in
      if failed result then (false, e) else (true, e)
    else (true, e) in
  let output_scope (e : AudioUnitEffect) : bool * AudioUnitEffect :=
    if (0 <? mAudioOuts e)%nat then
      let '(result, u) :=
        AudioUnitSetProperty (mUnit e) (kAudioUnitProperty_SampleRate rate)
          kAudioUnitScope_Output in
      let e := set_mUnit e u in
      if failed result then (false, e) else
      let '(result, u) :=
        AudioUnitSetProperty (mUnit e)
          (kAudioUnitProperty_StreamFormat (streamFormat rate (mAudioOuts e)))
          kAudioUnitScope_Output in
      let e := set_mUnit e u in
      if failed result then (false, e) else (true, e)
    else (true, e) in
  let '(ok, e) := input_scope e in
  if negb ok then (false, e) else
  let '(ok, e) := output_scope e in
  if negb ok then (false, e) else
  let '(result, u) := AudioUnitInitialize (mUnit e) in
  let e := set_mUnit e u in
  if failed result then (false, e) else
  (true, set_mUnitInitialized e true).

(** [ProcessInitialize].  [mInputList.reinit(mAudioIns)] allocates room
    for [mAudioIns] buffers without initialising them, and
    [mInputList[0].mNumberBuffers] is then written: with no channel the
    write is past the end of an array of length zero, and the model
    gives no result.  The same holds of the output list. *)
Definition ProcessInitialize (e : AudioUnitEffect)
  : option (bool * AudioUnitEffect) :=
  if (mAudioIns e =? 0)%nat then None else
  if (mAudioOuts e =? 0)%nat then None else
  let e := set_lists e (Some (replicate (mAudioIns e) None))
                       (Some (replicate (mAudioOuts e) None)) in
  let e := set_mSampleTime e f64_zero in
  Some
    (let '(ok, e) := SetRateAndChannels e in
     if negb ok then (false, e) else
     let '(result, u) :=
       AudioUnitSetProperty (mUnit e) kAudioUnitProperty_SetRenderCallback
         kAudioUnitScope_Input in
     let e := set_mUnit e u in
     if failed result then (false, e) else
     let '(result, u) := AudioUnitReset (mUnit e) in
     let e := set_mUnit e u in
     if failed result then (false, e) else
     let e := set_mLatencyDone e false in
     let e := set_mReady e true in
     (true, e)).

Definition ProcessFinalize (e : AudioUnitEffect) : bool * AudioUnitEffect :=
  (true, set_lists (set_mReady e false) None None).

Definition GetLatency (e : AudioUnitEffect) : Z * AudioUnitEffect :=
  if mUseLatency e && negb (mLatencyDone e) then
    let e := set_mLatencyDone e true in
    let '(_, latency) := GetProperty_Latency (mUnit e) f64_zero in
    (sampleCount_of_f64 (f64_mul latency (mSampleRate e)), e)
  else (0%Z, e).

(** *** Rendering *)

(** One turn of the loops that point a buffer list at the caller's
    channels: entry [i] is made to view [block[i]] as one channel of
    [blockLen] floats.  A null list, an entry outside the allocated
    list, and a caller array with no pointer at [i] are accesses outside
    the bounds; the model gives no result. *)
Definition bind_buffer (block : list (list Float32)) (blockLen : size_t)
    (bufferList : option (list (option AudioBuffer))) (i : nat)
  : option (list (option AudioBuffer)) :=
  buffers ← bufferList;
  data ← block !! i;
  _ ← buffers !! i;
  Some (<[i := Some (mkAudioBuffer 1 (wrap32 (4 * N.of_nat blockLen)) data)]>
          buffers).

(** The loop over the entries [i] below [count]. *)
Definition bind_buffers (count : nat) (block : list (list Float32))
    (blockLen : size_t) (bufferList : option (list (option AudioBuffer)))
  : option (list (option AudioBuffer)) :=
  foldl (bind_buffer block blockLen) bufferList (seq 0 count).

(** The buffers the render call finds in a list: every entry must have
    been written, an entry that never was holds an indeterminate
    pointer, and the model gives no result. *)
Definition written_buffers (buffers : list (option AudioBuffer))
  : option (list AudioBuffer) :=
  mapM id buffers.

(** [ProcessBlock] returns the frame count, the new content of the
    output channels and the effect.  The render call is handed
    [mOutputList.get()] and its callback reads [mInputList[0]]: both
    lists must be allocated. *)
Definition ProcessBlock (e : AudioUnitEffect)
    (inBlock outBlock : list (list Float32)) (blockLen : size_t)
  : option (size_t * list (list Float32) * AudioUnitEffect) :=
  inputs ← bind_buffers (mAudioIns e) inBlock blockLen (mInputList e);
  outputs ← bind_buffers (mAudioOuts e) outBlock blockLen (mOutputList e);
  let e := set_lists e (Some inputs) (Some outputs) in
  inputs ← written_buffers inputs;
  outputs ← written_buffers outputs;
  let '(result, rendered, u) :=
    AudioUnitRender (mUnit e) (mSampleTime e)
      (wrap32 (N.of_nat blockLen)) inputs outputs in
  let e := set_mUnit e u in
  if failed result then Some (0%nat, rendered, e)
  else
    let e := set_mSampleTime e
               (f64_add (mSampleTime e) (f64_of_size_t blockLen)) in
    Some (blockLen, rendered, e).

(** *** Realtime processing *)

(** [RealtimeInitialize] allocates the summing buffers, one row of
    [mBlockSize] floats per channel.  The input rows are zero-filled
    ([reinit(..., true)]); the output rows are not initialised, and
    [fresh c s] is what the allocated memory happens to hold at frame
    [s] of row [c]. *)
Definition RealtimeInitialize (e : AudioUnitEffect)
    (fresh : nat -> nat -> Float32) : option (bool * AudioUnitEffect) :=
  let e := set_mMasterIn e
             (replicate (mAudioIns e) (replicate (mBlockSize e) f32_zero)) in
  let e := set_mMasterOut e
             ((fun c => fresh c <$> seq 0 (mBlockSize e))
                <$> seq 0 (mAudioOuts e)) in
  ProcessInitialize e.

(** [memset(row, 0, mBlockSize * sizeof(float))]: the row must hold
    [blockSize] floats. *)
Definition clear_row (blockSize : nat) (row : list Float32)
  : option (list Float32) :=
  if decide (blockSize <= length row)%nat
  then Some (replicate blockSize f32_zero ++ drop blockSize row)
  else None.

(** The loop of [RealtimeProcessStart] over the channels below [count]. *)
Fixpoint clear_rows (count blockSize : nat) (master : list (list Float32))
  : option (list (list Float32)) :=
  match count with
  | O => Some master
  | S c =>
      match master with
      | m :: master' =>
          row ← clear_row blockSize m;
          rest ← clear_rows c blockSize master';
          Some (row :: rest)
      | [] => None
      end
  end.

Definition RealtimeProcessStart (e : AudioUnitEffect)
  : option (bool * AudioUnitEffect) :=
  cleared ← clear_rows (mAudioIns e) (mBlockSize e) (mMasterIn e);
  let e := set_mMasterIn e cleared in
  let e := set_mNumSamples e 0%nat in
  Some (true, e).

(** [mMasterIn[c][s] += inbuf[c][s]] for [s] below [numSamples]: both
    rows must hold [numSamples] floats. *)
Fixpoint accumulate_row (numSamples : nat) (acc inp : list Float32)
  : option (list Float32) :=
  match numSamples with
  | O => Some acc
  | S n =>
      match acc, inp with
      | a :: acc', x :: inp' =>
          rest ← accumulate_row n acc' inp';
          Some (f32_add a x :: rest)
      | _, _ => None
      end
  end.

(** The outer loop over the channels [c] below [count]. *)
Fixpoint accumulate (count numSamples : nat)
    (master inbuf : list (list Float32)) : option (list (list Float32)) :=
  match count with
  | O => Some master
  | S c =>
      match master, inbuf with
      | m :: master', i :: inbuf' =>
          row ← accumulate_row numSamples m i;
          rest ← accumulate c numSamples master' inbuf';
          Some (row :: rest)
      | _, _ => None
      end
  end.

Definition RealtimeProcess (e : AudioUnitEffect) (group : Z)
    (inbuf outbuf : list (list Float32)) (numSamples : size_t)
  : option (size_t * list (list Float32) * AudioUnitEffect) :=
  summed ← accumulate (mAudioIns e) numSamples (mMasterIn e) inbuf;
  let e := set_mMasterIn e summed in
  let e := set_mNumSamples e (max numSamples (mNumSamples e)) in
  if (group <? 0)%Z then None else
  slave ← mSlaves e !! Z.to_nat group;
  '(produced, rendered, slave') ← ProcessBlock slave inbuf outbuf numSamples;
  Some (produced, rendered,
        set_mSlaves e (<[Z.to_nat group := slave']> (mSlaves e))).

(** What a render leaves in the rows its output buffers view: row [i]
    takes the new content of output [i], when the render gives one. *)
Definition store_rendered (rendered block : list (list Float32))
  : list (list Float32) :=
  imap (fun i row => default row (rendered !! i)) block.

(** [RealtimeProcessEnd]: the master renders from the rows of
    [mMasterIn] into the rows of [mMasterOut], which the first
    [mAudioOuts] output buffers view; the frame count returned by
    [ProcessBlock] is dropped. *)
Definition RealtimeProcessEnd (e : AudioUnitEffect)
  : option (bool * AudioUnitEffect) :=
  '(_, rendered, e') ←
    ProcessBlock e (mMasterIn e) (mMasterOut e) (mNumSamples e);
  let e' := set_mMasterOut e'
              (store_rendered (take (mAudioOuts e) rendered) (mMasterOut e)) in
  Some (true, e').

(** *** Presets *)

(** The older [ParameterInfo::Get]: the name of the parameter, or
    failure when the info cannot be read or the name is empty. *)
Definition ParameterInfo_Get (unit : AudioUnit) (parmId : AudioUnitParameterID)
  : option wxString :=
  let '(result, info) := GetProperty_ParameterInfo unit parmId in
  if failed result then None
  else if wxString_empty (ParameterInfo_rawName info) then None
  else Some (ParameterInfo_clumpedName unit info).

(** The loop body of [SetAutomationParameters]. *)
Definition set_one_parameter (parms : CommandParameters)
    (u : AudioUnit) (id : AudioUnitParameterID) : AudioUnit :=
  match ParameterInfo_Get u id with
  | None => u
  | Some name =>
      match CommandParameters_Read parms name with
      | Some d =>
          let value := f32_of_f64 d in
          let '(_, u) := AudioUnitSetParameter u id value in
          AUParameterListenerNotify u (Some id)
      | None => u
      end
  end.

(** [sizeof(AudioUnitParameterID)] is 4. *)
Definition SetAutomationParameters (e : AudioUnitEffect)
    (parms : CommandParameters) : bool * AudioUnitEffect :=
  let '(result, dataSize) := GetPropertyInfo_ParameterList (mUnit e) in
  if failed result then (false, e) else
  let cnt := dataSize / 4 in
  let '(result, array) := GetProperty_ParameterList (mUnit e) dataSize in
  if failed result then (false, e) else
  (true,
   set_mUnit e
     (foldl (set_one_parameter parms) (mUnit e) (take (N.to_nat cnt) array))).

(** [SavePreset]: the length test is made on an [SInt32]. *)
Definition SavePreset (e : AudioUnitEffect) (h : Host) (group : wxString)
  : bool * AudioUnitEffect * Host :=
  let cfname := wxFileNameFromPath group in
  let '(_, u) :=
    AudioUnitSetProperty (mUnit e)
      (kAudioUnitProperty_PresentPreset (-1) cfname) kAudioUnitScope_Global in
  let e := set_mUnit e u in
  let '(_, content) := GetProperty_ClassInfo (mUnit e) in
  match CFPropertyListCreateData content PRESET_FORMAT with
  | None => (false, e, h)
  | Some data =>
      let length := wrap32 (N.of_nat (List.length data)) in
      if negb (length =? 0) then
        let parms := wxBase64Encode (take (N.to_nat length) data) in
        let '(ok, h) := SetPrivateConfig h group PRESET_KEY parms in
        if negb ok then (false, e, h) else (true, e, h)
      else (true, e, h)
  end.

(** The branch of [LoadPreset] taken when the group holds the old
    ["Parameters"] entry. *)
Definition LoadPreset_legacy (e : AudioUnitEffect) (h : Host)
    (group parms : wxString) : bool * AudioUnitEffect * Host :=
  let '(parsed, eap) := CommandParameters_SetParameters parms in
  if parsed then
    let '(set, e) := SetAutomationParameters e eap in
    if set then
      let '(saved, e, h) := SavePreset e h group in
      if saved then
        let '(_, h) := RemovePrivateConfig h group (wxT "Parameters") in
        (true, e, h)
      else (true, e, h)
    else (true, e, h)
  else (true, e, h).

(** Each slave receives the class info; a failure is only logged.  The
    notification names the master's unit. *)
Definition preset_to_slave (content : CFPropertyListRef)
    (st : AudioUnit * list AudioUnitEffect) (slave : AudioUnitEffect)
  : AudioUnit * list AudioUnitEffect :=
  let '(master_unit, done) := st in
  let '(_, u) :=
    AudioUnitSetProperty (mUnit slave) (kAudioUnitProperty_ClassInfo content)
      kAudioUnitScope_Global in
  (AUParameterListenerNotify master_unit None, done ++ [set_mUnit slave u]).

(** The branch of [LoadPreset] that reads the blob under [PRESET_KEY]. *)
Definition LoadPreset_blob (e : AudioUnitEffect) (h : Host)
    (group : wxString) : bool * AudioUnitEffect * Host :=
  match GetPrivateConfig h group PRESET_KEY with
  | None => (false, e, h)
  | Some parms =>
      let buf := wxBase64Decode parms in
      if (List.length buf =? 0)%nat then (false, e, h) else
      match CFDataCreateWithBytesNoCopy buf with
      | None => (false, e, h)
      | Some data =>
          match CFPropertyListCreateWithData data with
          | None => (false, e, h)
          | Some content =>
              let '(result, u) :=
                AudioUnitSetProperty (mUnit e)
                  (kAudioUnitProperty_ClassInfo content)
                  kAudioUnitScope_Global in
              let e := set_mUnit e u in
              if failed result then (false, e, h) else
              let e := set_mUnit e (AUParameterListenerNotify (mUnit e) None) in
              let '(u, slaves) :=
                foldl (preset_to_slave content) (mUnit e, []) (mSlaves e) in
              (true, set_mSlaves (set_mUnit e u) slaves, h)
          end
      end
  end.

Definition LoadPreset (e : AudioUnitEffect) (h : Host) (group : wxString)
  : bool * AudioUnitEffect * Host :=
  match GetPrivateConfig h group (wxT "Parameters") with
  | Some parms => LoadPreset_legacy e h group parms
  | None => LoadPreset_blob e h group
  end.
End Effect.
End AudioUnitEffect.

From Stdlib Require Ascii HexadecimalString HexadecimalN.

(** ** AudioUnitWrapper: the preset blob *)

Module AudioUnitWrapperBlob.
Section Blob.
Context `{AudioUnitSDK}.
Import AudioUnitWrapper.

(** The messages of [MakeBlob] and [InterpretBlob]; [no_message] is the
    empty [TranslatableString], and the messages of [InterpretBlob]
    carry the group they were formatted with. *)
Inductive TranslatableString :=
| no_message
| Failed_to_set_preset_name
| Failed_to_retrieve_preset_content
| Failed_to_convert_property_list_to_XML_data
| XML_data_is_empty_after_conversion
| Failed_to_decode_preset (group : wxString)
| Failed_to_convert_preset_to_internal_format (group : wxString)
| Failed_to_create_property_list_for_preset (group : wxString)
| Failed_to_set_class_info_for_preset (group : wxString).

Definition with_unit (w : AudioUnitWrapper) (u : AudioUnit) : AudioUnitWrapper :=
  mkWrapper u (mParameters w).


(** [MakeBlob]: the data (null when a step before the conversion
    fails), the message and the wrapper after the call. *)
Definition MakeBlob (w : AudioUnitWrapper) (cfname : wxString) (binary : bool)
  : option (list byte) * TranslatableString * AudioUnitWrapper :=
  let '(result, u) :=
    AudioUnitSetProperty (mUnit w)
      (kAudioUnitProperty_PresentPreset (-1) cfname) kAudioUnitScope_Global in
  let w := with_unit w u in
  if failed result then (None, Failed_to_set_preset_name, w) else
  let '(result, content) := GetProperty_ClassInfo (mUnit w) in
  if failed result then (None, Failed_to_retrieve_preset_content, w) else
  match CFPropertyListCreateData content
          (if binary then PRESET_FORMAT else kCFPropertyListXMLFormat_v1_0) with
  | None => (None, Failed_to_convert_property_list_to_XML_data, w)
  | Some data =>
      if (length data =? 0)%nat
      then (Some data, XML_data_is_empty_after_conversion, w)
      else (Some data, no_message, w)
  end.
End Blob.
End AudioUnitWrapperBlob.

(** ** AudioUnitEffect: type, notifications, factory presets *)

(** [AUPreset]: a preset number and its name. *)
Record AUPreset `{WxStrings} := mkAUPreset {
  presetNumber : Z;
  presetName : wxString
}.
Arguments mkAUPreset {_} _ _.

(** kAudioUnitProperty_FactoryPresets: the status and the array of
    presets the component returns. *)
Class FactoryPresetsSDK `{AudioUnitSDK} := {
  GetProperty_FactoryPresets : AudioUnit -> OSStatus * list AUPreset
}.

Module AudioUnitEffectLifecycle.
Section Lifecycle.
Context `{AudioUnitSDK} `{!EffectHostInterface} `{!FactoryPresetsSDK}.
Import AudioUnitEffect.

(** The values of [EffectType] that [GetType] returns. *)
Inductive EffectType :=
| EffectTypeNone
| EffectTypeGenerate
| EffectTypeProcess
| EffectTypeAnalyze.

Definition GetType (e : AudioUnitEffect) : EffectType :=
  if (mAudioIns e =? 0)%nat && (mAudioOuts e =? 0)%nat then EffectTypeNone
  else if (mAudioIns e =? 0)%nat then EffectTypeGenerate
  else if (mAudioOuts e =? 0)%nat then EffectTypeAnalyze
  else EffectTypeProcess.

Definition SupportsRealtime (e : AudioUnitEffect) : bool :=
  match GetType e with
  | EffectTypeProcess => true
  | _ => false
  end.

(** [CopyParameters(srcUnit, dstUnit)]: the result and the destination
    unit after the call. *)
Definition CopyParameters (srcUnit dstUnit : AudioUnit) : bool * AudioUnit :=
  let '(result, content) := GetProperty_ClassInfo srcUnit in
  if failed result then (false, dstUnit) else
  let '(result, dstUnit) :=
    AudioUnitSetProperty dstUnit (kAudioUnitProperty_ClassInfo content)
      kAudioUnitScope_Global in
  if failed result then (false, dstUnit) else
  (true, AUParameterListenerNotify dstUnit None).

(** The events the listener receives. *)
Inductive AudioUnitEventType :=
| kAudioUnitEvent_ParameterValueChange
| kAudioUnitEvent_BeginParameterChangeGesture
| kAudioUnitEvent_EndParameterChangeGesture
| kAudioUnitEvent_PropertyChange.

(** [AudioUnitEvent]: the type and the two readings of [mArgument]. *)
Record AudioUnitEvent := mkEvent {
  mEventType : AudioUnitEventType;
  mParameterID : AudioUnitParameterID;
  mPropertyID : UInt32
}.

Definition is_property_change (inEvent : AudioUnitEvent) : bool :=
  match mEventType inEvent with
  | kAudioUnitEvent_PropertyChange => true
  | _ => false
  end.

(** [EventListener] on an effect whose [mMaster] is set: the parameter
    is set on its own unit. *)
Definition EventListener_slave (slave : AudioUnitEffect)
    (inEvent : AudioUnitEvent) (inParameterValue : Float32) : AudioUnitEffect :=
  if is_property_change inEvent then slave
  else
    set_mUnit slave
      (snd (AudioUnitSetParameter (mUnit slave) (mParameterID inEvent)
              inParameterValue)).

(** [EventListener].  The record has no [mMaster] member: [is_slave]
    tells whether it is set.  The effects in [mSlaves] are constructed
    with their master, so the calls the master makes on them take the
    slave branch. *)
Definition EventListener (is_slave : bool) (e : AudioUnitEffect)
    (inEvent : AudioUnitEvent) (inParameterValue : Float32) : AudioUnitEffect :=
  if is_property_change inEvent then e
  else if is_slave then EventListener_slave e inEvent inParameterValue
  else
    set_mSlaves e
      ((fun slave => EventListener_slave slave inEvent inParameterValue)
         <$> mSlaves e).

(** [LoadFactoryPreset(id)] *)
Definition LoadFactoryPreset (e : AudioUnitEffect) (id : Z)
  : bool * AudioUnitEffect :=
  let '(result, array) := GetProperty_FactoryPresets (mUnit e) in
  if failed result then (false, e) else
  if (id <? 0)%Z || (Z.of_nat (length array) <=? id)%Z then (false, e) else
  match array !! Z.to_nat id with
  | None => (false, e)
  | Some preset =>
      let '(result, u) :=
        AudioUnitSetProperty (mUnit e)
          (kAudioUnitProperty_PresentPreset (presetNumber preset)
             (presetName preset))
          kAudioUnitScope_Global in
      let u := if failed result then u else AUParameterListenerNotify u None in
      (negb (failed result), set_mUnit e u)
  end.

Definition GetFactoryPresets (e : AudioUnitEffect) : list wxString :=
  let '(result, array) := GetProperty_FactoryPresets (mUnit e) in
  if failed result then [] else presetName <$> array.
End Lifecycle.
End AudioUnitEffectLifecycle.

(** ** AudioUnitWrapper::ParameterInfo: the synthesised name *)

(** The text of the name that the constructor of [ParameterInfo] builds
    (USE_EXTENDED_NAMES), over strings as sequences of characters.  The
    inputs are what the constructor reads from the component: the name of
    the parameter, and, when the flag kAudioUnitParameterFlag_HasClump is
    set, the clump id with the clump name if the query for it succeeded. *)
Module ParameterNames.
Import Stdlib.Strings.Ascii.
Local Open Scope char_scope.

Definition idBeg : ascii := "<"%char.
Definition idSep : ascii := ","%char.
Definition idEnd : ascii := ">"%char.
Definition underscore : ascii := "_"%char.

(** [s.Replace(old, new)] for single characters: every occurrence. *)
Definition Replace (old new : ascii) (s : list ascii) : list ascii :=
  (fun c => if Ascii.eqb c old then new else c) <$> s.

(** The three replacements and the appended separator. *)
Definition sanitized (name : list ascii) : list ascii :=
  Replace idEnd underscore
    (Replace idSep underscore (Replace idBeg underscore name))
  ++ [idSep].

(** The conversion [%x] of an unsigned number: lower-case hexadecimal
    without leading zeros. *)
Definition hex (n : N) : list ascii :=
  String.list_ascii_of_string
    (HexadecimalString.NilEmpty.string_of_uint (N.to_hex_uint n)).

(** [<[ParameterName,]parmID>] *)
Definition bracketed_name (name : list ascii) (parmID : AudioUnitParameterID)
  : list ascii :=
  let name := match name with [] => name | _ => sanitized name end in
  [idBeg] ++ name ++ hex parmID ++ [idEnd].

(** A clump, when the parameter has one: its id, and its name when the
    query for kAudioUnitProperty_ParameterClumpName succeeded. *)
Record Clump := mkClump {
  clumpID : UInt32;
  outName : option (list ascii)
}.

(** [<[clumpName,]clumpId><[ParameterName,]parmID>] *)
Definition extended_name (name : list ascii) (parmID : AudioUnitParameterID)
    (clump : option Clump) : list ascii :=
  let name := bracketed_name name parmID in
  match clump with
  | None => name
  | Some clump =>
      let clumpName :=
        match outName clump with
        | Some text => sanitized text
        | None => []
        end in
      [idBeg] ++ clumpName ++ hex (clumpID clump) ++ [idEnd] ++ name
  end.

(** The characters [%x] can produce. *)
Definition is_hex_digit (c : ascii) : bool :=
  bool_decide (c ∈ String.list_ascii_of_string "0123456789abcdef").
End ParameterNames.

(** ** The negotiation policy as the specification words it *)

Module ChannelPolicy.
(** The priority table: stereo to stereo, mono to mono, mono to stereo,
    stereo to mono, the two generators, the two analysers. *)
Definition priority_table : list (Z * Z) :=
  [ (2, 2); (1, 1); (1, 2); (2, 1); (0, 1); (0, 2); (2, 0); (1, 0) ]%Z.

(** A wildcard (negative) channel field is resolved to 2. *)
Definition resolve_field (c : Z) : Z := if (c <? 0)%Z then 2%Z else c.

Definition resolved_pair (ci : AUChannelInfo) : Z * Z :=
  (resolve_field (inChannels ci), resolve_field (outChannels ci)).

(** First match wins; with no match the pair is stereo to stereo. *)
Definition first_match (table : list AUChannelInfo) : Z * Z :=
  default (2, 2)%Z
    (find (fun p => bool_decide (p ∈ map resolved_pair table)) priority_table).

(** [None] stands for a plug-in that reports no constraint table. *)
Definition chosen_pair (table : option (list AUChannelInfo)) : Z * Z :=
  match table with
  | None => (2, 2)%Z
  | Some table => first_match table
  end.

Section Reported.
Context `{AudioUnitSDK}.

(** The constraint table the component reports, if both property calls
    succeed: the entries that [dataSize] covers. *)
Definition reported_table (u : AudioUnit) : option (list AUChannelInfo) :=
  let '(result, dataSize) := GetPropertyInfo_SupportedNumChannels u in
  if failed result then None
  else
    let '(result, (dataSize, info)) :=
      GetProperty_SupportedNumChannels u dataSize in
    if failed result then None
    else Some (take (N.to_nat (dataSize / 4)) info).

Definition has_pattern (p : Z * Z) (table : list AUChannelInfo) : bool :=
  existsb (fun ci => (fst (resolved_pair ci) =? fst p)%Z
                     && (snd (resolved_pair ci) =? snd p)%Z) table.
End Reported.
End ChannelPolicy.

(** ** The code conversions as the specification words them *)

Module FourCharCodes.
Section Codes.
Context `{WxStrings}.
Import AudioUnitEffectsModule.

(** The reading of the conversion claim for every identifier: the text
    of any 32-bit word converts back to the word. *)
Definition every_identifier_converts_back : Prop :=
  forall x : OSType, x < 2 ^ 32 -> ToOSType (FromOSType x) = Some x.
End Codes.
End FourCharCodes.

(** ** Observations on a component, and the laws of a parameter store *)

Module ParameterStore.
Section Observations.
Context `{AudioUnitSDK}.
Import AudioUnitWrapper.

(** Whether the info of a parameter can be read: the guard [pi.mName]. *)
Definition named (u : AudioUnit) (id : AudioUnitParameterID) : bool :=
  match mName (ParameterInfo_ctor u id) with
  | Some _ => true
  | None => false
  end.

(** The value a successful [AudioUnitGetParameter] gives. *)
Definition current_value (u : AudioUnit) (id : AudioUnitParameterID)
  : option Float32 :=
  let '(result, value) := AudioUnitGetParameter u id in
  if failed result then None else Some value.

(** A run of [AudioUnitSetParameter] calls, in order. *)
Definition apply_sets (u : AudioUnit)
    (calls : list (AudioUnitParameterID * Float32)) : AudioUnit :=
  foldl (fun u call => snd (AudioUnitSetParameter u (fst call) (snd call)))
        u calls.


(** The same, restricted to the parameters whose info can be read. *)
Definition named_cached_pairs (u : AudioUnit)
    (ids : list AudioUnitParameterID) (settings : AudioUnitEffectSettings)
  : list (AudioUnitParameterID * Float32) :=
  omap (fun id => if named u id then pair id <$> values settings !! id
                  else None) ids.

(** What a fetch reads for [id]: the current value, when [id] is
    listed, its info can be read and the query succeeds. *)
Definition fetched (u : AudioUnit) (ids : list AudioUnitParameterID)
    (id : AudioUnitParameterID) : option Float32 :=
  if bool_decide (id ∈ ids) && named u id then current_value u id else None.

Definition listed_ids (w : AudioUnitWrapper) : list AudioUnitParameterID :=
  default [] (mParameters w).


(** The reading of the round-trip claim for every component: a fetch,
    a store of the fetched cache and a second fetch give the map of the
    first fetch. *)
Definition fetch_store_fetch_same (w : AudioUnitWrapper)
    (settings : AudioUnitEffectSettings) : Prop :=
  let cache := snd (FetchSettings w settings) in
  let w' := snd (StoreSettings w cache) in
  FetchSettings w' cache = (true, cache).

(** Setting a parameter does not change which parameters have info. *)
Definition names_stable : Prop :=
  forall u id v id',
    named (snd (AudioUnitSetParameter u id v)) id' = named u id'.

(** Setting a parameter leaves the value of every other one alone. *)
Definition sets_are_local : Prop :=
  forall u id v id', id' <> id ->
    current_value (snd (AudioUnitSetParameter u id v)) id' = current_value u id'.

(** After a set, the parameter reads as the value given, or, when the
    component did not take it, as before. *)
Definition sets_take_or_leave : Prop :=
  forall u id v,
    current_value (snd (AudioUnitSetParameter u id v)) id = Some v \/
    current_value (snd (AudioUnitSetParameter u id v)) id = current_value u id.
End Observations.
End ParameterStore.

(** ** Sessions, cycles and migrations: the drivers the claims speak of *)

Module Sessions.
Section Drivers.
Context `{AudioUnitSDK} `{!EffectHostInterface}.
Import AudioUnitEffect.

(** [n] calls of [GetLatency] in a row, with the values returned. *)
Fixpoint GetLatency_calls (n : nat) (e : AudioUnitEffect)
  : list Z * AudioUnitEffect :=
  match n with
  | O => ([], e)
  | S n =>
      let '(l, e) := GetLatency e in
      let '(ls, e) := GetLatency_calls n e in
      (l :: ls, e)
  end.

(** The latency of the component in samples, as [GetLatency] computes it. *)
Definition plugin_latency (e : AudioUnitEffect) : Z :=
  sampleCount_of_f64
    (f64_mul (snd (GetProperty_Latency (mUnit e) f64_zero)) (mSampleRate e)).

(** The reading of the latency claim with a cached value: in a session
    with the option on, every call returns the component's latency. *)
Definition latency_cached_in_session (e : AudioUnitEffect) : Prop :=
  forall e1 n,
    ProcessInitialize e = Some (true, e1) ->
    mUseLatency e1 = true ->
    fst (GetLatency_calls n e1) = replicate n (plugin_latency e1).

(** The buffer list [ProcessBlock] builds over the first [count]
    channels of [block]. *)
Definition render_buffers (count : nat) (block : list (list Float32))
    (blockLen : size_t) : list AudioBuffer :=
  map (mkAudioBuffer 1 (wrap32 (4 * N.of_nat blockLen))) (take count block).

(** The status of the render call that [ProcessBlock] makes. *)
Definition render_status (e : AudioUnitEffect)
    (inBlock outBlock : list (list Float32)) (blockLen : size_t) : OSStatus :=
  fst (fst (AudioUnitRender (mUnit e) (mSampleTime e)
              (wrap32 (N.of_nat blockLen))
              (render_buffers (mAudioIns e) inBlock blockLen)
              (render_buffers (mAudioOuts e) outBlock blockLen))).

(** The serialised class state that [SavePreset] obtains for [group]. *)
Definition serialized_state (e : AudioUnitEffect) (group : wxString)
  : option (list byte) :=
  let u := snd (AudioUnitSetProperty (mUnit e)
                  (kAudioUnitProperty_PresentPreset (-1)
                     (wxFileNameFromPath group))
                  kAudioUnitScope_Global) in
  CFPropertyListCreateData (snd (GetProperty_ClassInfo u)) PRESET_FORMAT.

(** The reading of the migration claim without conditions: whenever a
    legacy entry is found, the load removes it. *)
Definition legacy_always_removed (e : AudioUnitEffect) (h : Host)
    (group : wxString) : Prop :=
  is_Some (GetPrivateConfig h group (wxT "Parameters")) ->
  GetPrivateConfig (snd (LoadPreset e h group)) group (wxT "Parameters")
  = None.

(** The state that a migration has to persist: the serialised class
    state of the component after the legacy text was parsed and its
    parameters were set; none when the text does not parse, the
    parameters cannot be set or the state cannot be serialised. *)
Definition migrated_state (e : AudioUnitEffect) (group parms : wxString)
  : option (list byte) :=
  let '(parsed, eap) := CommandParameters_SetParameters parms in
  if parsed then
    let '(set, e) := SetAutomationParameters e eap in
    if set then serialized_state e group else None
  else None.

(** In the store, a key that was removed is no longer found. *)
Definition removed_keys_are_gone : Prop :=
  forall h group key,
    GetPrivateConfig (snd (RemovePrivateConfig h group key)) group key = None.

(** In the store, removing the legacy entry leaves the blob alone. *)
Definition legacy_removal_keeps_blob : Prop :=
  forall h group,
    GetPrivateConfig (snd (RemovePrivateConfig h group (wxT "Parameters")))
      group PRESET_KEY
    = GetPrivateConfig h group PRESET_KEY.

(** The calls that [SetRateAndChannels] makes on the component, in
    order: the sample rate on the global scope, the sample rate and the
    stream format on the input scope when there is an input channel,
    the same on the output scope when there is an output channel, and
    the initialisation. *)
Definition configuration_calls (e : AudioUnitEffect)
  : list (AudioUnit -> OSStatus * AudioUnit) :=
  let rate := mSampleRate e in
  let set_rate scope u :=
    AudioUnitSetProperty u (kAudioUnitProperty_SampleRate rate) scope in
  let set_format channels scope u :=
    AudioUnitSetProperty u
      (kAudioUnitProperty_StreamFormat (streamFormat rate channels)) scope in
  [set_rate kAudioUnitScope_Global]
  ++ (if (0 <? mAudioIns e)%nat
      then [set_rate kAudioUnitScope_Input;
            set_format (mAudioIns e) kAudioUnitScope_Input]
      else [])
  ++ (if (0 <? mAudioOuts e)%nat
      then [set_rate kAudioUnitScope_Output;
            set_format (mAudioOuts e) kAudioUnitScope_Output]
      else [])
  ++ [AudioUnitInitialize].

(** A run of calls that stops at the first one that fails: whether all
    succeeded, and the component as the last call made left it. *)
Fixpoint until_failure (calls : list (AudioUnit -> OSStatus * AudioUnit))
    (u : AudioUnit) : bool * AudioUnit :=
  match calls with
  | [] => (true, u)
  | call :: calls =>
      let '(result, u) := call u in
      if failed result then (false, u) else until_failure calls u
  end.

(** One call [RealtimeProcess(group, inbuf, outbuf, numSamples)]. *)
Record RealtimeCall := mkCall {
  call_group : Z;
  call_inbuf : list (list Float32);
  call_outbuf : list (list Float32);
  call_numSamples : size_t
}.

(** The calls of one cycle, in order. *)
Fixpoint RealtimeProcess_calls (e : AudioUnitEffect)
    (calls : list RealtimeCall) : option AudioUnitEffect :=
  match calls with
  | [] => Some e
  | c :: calls =>
      '(_, _, e) ← RealtimeProcess e (call_group c) (call_inbuf c)
                     (call_outbuf c) (call_numSamples c);
      RealtimeProcess_calls e calls
  end.

(** A cycle up to, and without, [RealtimeProcessEnd]. *)
Definition cycle_before_end (e : AudioUnitEffect)
    (calls : list RealtimeCall) : option AudioUnitEffect :=
  '(_, e) ← RealtimeProcessStart e;
  RealtimeProcess_calls e calls.

(** Sample [s] of channel [chan] of a matrix of samples. *)
Definition sample_at (m : list (list Float32)) (chan s : nat)
  : option Float32 :=
  row ← m !! chan; row !! s.

(** One more call added to a running sum: the call counts at frame [s]
    when it has that frame. *)
Definition add_call (chan s : nat) (acc : Float32) (c : RealtimeCall)
  : Float32 :=
  if decide (s < call_numSamples c)%nat
  then f32_add acc (default f32_zero (sample_at (call_inbuf c) chan s))
  else acc.

(** The sum, in call order and starting from zero, of the input samples
    at frame [s] of channel [chan]. *)
Definition sample_sum (calls : list RealtimeCall) (chan s : nat) : Float32 :=
  foldl (add_call chan s) f32_zero calls.

(** The largest frame count of the cycle. *)
Definition max_frames (calls : list RealtimeCall) : size_t :=
  foldl (fun m c => max (call_numSamples c) m) 0%nat calls.

(** The buffer lists as [ProcessInitialize] allocates them: one entry
    for each channel. *)
Definition buffers_allocated (e : AudioUnitEffect) : Prop :=
  length <$> mInputList e = Some (mAudioIns e) /\
  length <$> mOutputList e = Some (mAudioOuts e).

(** The summing buffers and the buffer lists as [RealtimeInitialize]
    allocates them. *)
Definition master_ready (e : AudioUnitEffect) : Prop :=
  length (mMasterIn e) = mAudioIns e /\
  Forall (fun row => length row = mBlockSize e) (mMasterIn e) /\
  (mAudioOuts e <= length (mMasterOut e))%nat /\
  buffers_allocated e.

(** The channel counts of the slaves and the lengths of their buffer
    lists, by group index. *)
Definition slave_counts (e : AudioUnitEffect)
  : list (nat * nat * option nat * option nat) :=
  (fun slave => (mAudioIns slave, mAudioOuts slave,
                 length <$> mInputList slave, length <$> mOutputList slave))
    <$> mSlaves e.

(** What the realtime calls of a cycle leave alone in the master. *)
Definition master_frame (e : AudioUnitEffect) :=
  (mUnit e, mSampleTime e, mMasterOut e, mInputList e, mOutputList e,
   mAudioIns e, mAudioOuts e, mBlockSize e).

(** A call the effect can serve: the frame count is within the block
    size (the [wxASSERT]), the input array holds the master's channels
    with that many frames each, the group has a slave whose buffer
    lists are allocated, and both arrays hold the slave's channels. *)
Definition call_fits (e : AudioUnitEffect) (c : RealtimeCall) : Prop :=
  (call_numSamples c <= mBlockSize e)%nat /\
  (mAudioIns e <= length (call_inbuf c))%nat /\
  Forall (fun row => (call_numSamples c <= length row)%nat)
         (take (mAudioIns e) (call_inbuf c)) /\
  (0 <= call_group c)%Z /\
  exists ins outs,
    slave_counts e !! Z.to_nat (call_group c)
    = Some (ins, outs, Some ins, Some outs) /\
    (ins <= length (call_inbuf c))%nat /\
    (outs <= length (call_outbuf c))%nat.
End Drivers.
End Sessions.

(** ** What a load finds, and the laws of the store and of the codec *)

Module PresetStore.
Section Found.
Context `{AudioUnitSDK} `{!EffectHostInterface}.
Import AudioUnitEffect.

(** The property list that the blob under [PRESET_KEY] decodes to:
    none when the key is missing, the text decodes to no byte, or
    CoreFoundation cannot read the bytes. *)
Definition decoded_content (h : Host) (group : wxString)
  : option CFPropertyListRef :=
  parms ← GetPrivateConfig h group PRESET_KEY;
  let buf := wxBase64Decode parms in
  if (length buf =? 0)%nat then None
  else data ← CFDataCreateWithBytesNoCopy buf;
       CFPropertyListCreateWithData data.

(** A slave after it received the class info. *)
Definition slave_with_preset (content : CFPropertyListRef)
    (slave : AudioUnitEffect) : AudioUnitEffect :=
  set_mUnit slave
    (snd (AudioUnitSetProperty (mUnit slave)
            (kAudioUnitProperty_ClassInfo content) kAudioUnitScope_Global)).

(** In the store, a value that was accepted is found under its key. *)
Definition stored_values_are_found : Prop :=
  forall h group key value,
    fst (SetPrivateConfig h group key value) = true ->
    GetPrivateConfig (snd (SetPrivateConfig h group key value)) group key
    = Some value.

(** Decoding undoes encoding. *)
Definition base64_round_trip : Prop :=
  forall bytes, wxBase64Decode (wxBase64Encode bytes) = bytes.

(** A class info that the component accepted is the one it gives back,
    also after the listeners were notified. *)
Definition class_info_is_read_back : Prop :=
  forall u content,
    failed (fst (AudioUnitSetProperty u (kAudioUnitProperty_ClassInfo content)
                   kAudioUnitScope_Global)) = false ->
    snd (GetProperty_ClassInfo
           (AUParameterListenerNotify
              (snd (AudioUnitSetProperty u
                      (kAudioUnitProperty_ClassInfo content)
                      kAudioUnitScope_Global)) None))
    = content.
End Found.
End PresetStore.

(** ** A small concrete platform

    A table-backed component and a map-backed configuration store, used to
    run the host functions on concrete inputs. *)

Module Toy.
#[export] Instance numerics : Numerics := {|
  Float32 := Z;
  Float64 := Z;
  f32_zero := 0%Z;
  f32_add := Z.add;
  f32_of_f64 := fun d => d;
  f64_zero := 0%Z;
  f64_add := Z.add;
  f64_mul := Z.mul;
  f64_of_size_t := Z.of_nat;
  sampleCount_of_f64 := fun d => d
|}.

#[export] Instance strings : WxStrings := {|
  wxString := string;
  wxT := fun s => s;
  wxString_FromUTF8 := String.string_of_list_byte;
  wxString_ToUTF8 := String.list_byte_of_string;
  wxBase64Encode := String.string_of_list_byte;
  wxBase64Decode := String.list_byte_of_string;
  wxFileNameFromPath := fun s => s
|}.

(** Well-formed UTF-8: a lead byte with the continuation bytes it
    announces. *)
Definition is_continuation (b : byte) : bool :=
  (0x80 <=? Byte.to_N b) && (Byte.to_N b <? 0xC0).

Fixpoint valid_utf8 (bytes : list byte) : bool :=
  match bytes with
  | [] => true
  | b :: rest =>
      if Byte.to_N b <? 0x80 then valid_utf8 rest
      else if (0xC2 <=? Byte.to_N b) && (Byte.to_N b <? 0xE0) then
        match rest with
        | c1 :: rest => is_continuation c1 && valid_utf8 rest
        | _ => false
        end
      else if (0xE0 <=? Byte.to_N b) && (Byte.to_N b <? 0xF0) then
        match rest with
        | c1 :: c2 :: rest =>
            is_continuation c1 && is_continuation c2 && valid_utf8 rest
        | _ => false
        end
      else if (0xF0 <=? Byte.to_N b) && (Byte.to_N b <? 0xF5) then
        match rest with
        | c1 :: c2 :: c3 :: rest =>
            is_continuation c1 && is_continuation c2 && is_continuation c3
            && valid_utf8 rest
        | _ => false
        end
      else false
  end.

(** A string class that checks what it is given: [FromUTF8] of bytes
    that are not well-formed UTF-8 is the empty string. *)
Definition checking_strings : WxStrings := {|
  wxString := string;
  wxT := fun s => s;
  wxString_FromUTF8 := fun bytes =>
    if valid_utf8 bytes then String.string_of_list_byte bytes
    else EmptyString;
  wxString_ToUTF8 := String.list_byte_of_string;
  wxBase64Encode := String.string_of_list_byte;
  wxBase64Decode := String.list_byte_of_string;
  wxFileNameFromPath := fun s => s
|}.

#[export] Instance corefoundation : CoreFoundation := {|
  CFPropertyListRef := list byte;
  CFPropertyListCreateData := fun content _ => Some content;
  CFDataCreateWithBytesNoCopy := fun bytes => Some bytes;
  CFPropertyListCreateWithData := fun data => Some data
|}.

(** The component: a table of parameter values, the ids it lists, the
    ids whose info it does not give, its channel table, its latency, its
    class state and the status its render call returns. *)
Record Unit := mkUnit {
  table : gmap N Z;
  listed : list N;
  hidden : list N;
  channels : option (list AUChannelInfo);
  latency : Z;
  state : list byte;
  render_status : OSStatus
}.

Definition kAudioUnitErr_InvalidParameter : OSStatus := (-10878)%Z.

Definition with_table (u : Unit) (t : gmap N Z) : Unit :=
  mkUnit t (listed u) (hidden u) (channels u) (latency u) (state u)
    (render_status u).
Definition with_state (u : Unit) (s : list byte) : Unit :=
  mkUnit (table u) (listed u) (hidden u) (channels u) (latency u) s
    (render_status u).

#[export] Instance sdk : AudioUnitSDK := {|
  AudioUnit := Unit;
  AudioUnitParameterInfo := string;
  AudioUnitGetParameter := fun u id =>
    match table u !! id with
    | Some v => (noErr, v)
    | None => (kAudioUnitErr_InvalidParameter, 0%Z)
    end;
  AudioUnitSetParameter := fun u id v =>
    match table u !! id with
    | Some _ => (noErr, with_table u (<[id := v]> (table u)))
    | None => (kAudioUnitErr_InvalidParameter, u)
    end;
  GetProperty_ParameterInfo := fun u id =>
    if bool_decide (id ∈ hidden u)
    then (kAudioUnitErr_InvalidParameter, EmptyString)
    else (noErr, "p"%string);
  ParameterInfo_rawName := fun info => info;
  wxString_empty := fun s => bool_decide (s = EmptyString);
  ParameterInfo_extendedName := fun _ info _ => info;
  ParameterInfo_clumpedName := fun _ info => info;
  GetPropertyInfo_ParameterList := fun u =>
    (noErr, 4 * N.of_nat (length (listed u)));
  GetProperty_ParameterList := fun u _ => (noErr, listed u);
  GetPropertyInfo_SupportedNumChannels := fun u =>
    match channels u with
    | Some l => (noErr, 4 * N.of_nat (length l))
    | None => (kAudioUnitErr_InvalidParameter, 0)
    end;
  GetProperty_SupportedNumChannels := fun u size =>
    (noErr, (size, default [] (channels u)));
  GetProperty_Latency := fun u _ => (noErr, latency u);
  GetProperty_ClassInfo := fun u => (noErr, state u);
  AudioUnitSetProperty := fun u p _ =>
    match p with
    | kAudioUnitProperty_ClassInfo content => (noErr, with_state u content)
    | _ => (noErr, u)
    end;
  AudioUnitInitialize := fun u => (noErr, u);
  AudioUnitUninitialize := fun u => (noErr, u);
  AudioUnitReset := fun u => (noErr, u);
  AudioUnitRender := fun u _ _ inputs _ =>
    (render_status u, map mData inputs, u);
  AUParameterListenerNotify := fun u _ => u
|}.

(** A component with a mode: it answers as the table-backed component
    does, but taking a value for parameter 8 puts parameter 5 back to
    zero. *)
Definition mode_sdk : AudioUnitSDK := {|
  AudioUnit := Unit;
  AudioUnitParameterInfo := string;
  AudioUnitGetParameter := AudioUnitGetParameter (AudioUnitSDK := sdk);
  AudioUnitSetParameter := fun u id v =>
    let '(result, u') := AudioUnitSetParameter (AudioUnitSDK := sdk) u id v in
    if (id =? 8) && negb (failed result)
    then (result, with_table u' (<[5 := 0%Z]> (table u')))
    else (result, u');
  GetProperty_ParameterInfo :=
    GetProperty_ParameterInfo (AudioUnitSDK := sdk);
  ParameterInfo_rawName := ParameterInfo_rawName (AudioUnitSDK := sdk);
  wxString_empty := wxString_empty (AudioUnitSDK := sdk);
  ParameterInfo_extendedName :=
    ParameterInfo_extendedName (AudioUnitSDK := sdk);
  ParameterInfo_clumpedName :=
    ParameterInfo_clumpedName (AudioUnitSDK := sdk);
  GetPropertyInfo_ParameterList :=
    GetPropertyInfo_ParameterList (AudioUnitSDK := sdk);
  GetProperty_ParameterList :=
    GetProperty_ParameterList (AudioUnitSDK := sdk);
  GetPropertyInfo_SupportedNumChannels :=
    GetPropertyInfo_SupportedNumChannels (AudioUnitSDK := sdk);
  GetProperty_SupportedNumChannels :=
    GetProperty_SupportedNumChannels (AudioUnitSDK := sdk);
  GetProperty_Latency := GetProperty_Latency (AudioUnitSDK := sdk);
  GetProperty_ClassInfo := GetProperty_ClassInfo (AudioUnitSDK := sdk);
  AudioUnitSetProperty := AudioUnitSetProperty (AudioUnitSDK := sdk);
  AudioUnitInitialize := AudioUnitInitialize (AudioUnitSDK := sdk);
  AudioUnitUninitialize := AudioUnitUninitialize (AudioUnitSDK := sdk);
  AudioUnitReset := AudioUnitReset (AudioUnitSDK := sdk);
  AudioUnitRender := AudioUnitRender (AudioUnitSDK := sdk);
  AUParameterListenerNotify :=
    AUParameterListenerNotify (AudioUnitSDK := sdk)
|}.

(** The configuration store: a map from (group, key) to the text.  The
    parameter text is accepted unless it starts with an exclamation
    mark; it names no parameter of the table. *)
#[export] Instance host : EffectHostInterface := {|
  Host := gmap (string * string) string;
  GetPrivateConfig := fun h group key => h !! (group, key);
  SetPrivateConfig := fun h group key v => (true, <[(group, key) := v]> h);
  RemovePrivateConfig := fun h group key => (true, delete (group, key) h);
  CommandParameters := string;
  CommandParameters_SetParameters := fun text =>
    if String.prefix "!" text then (false, text) else (true, text);
  CommandParameters_Read := fun _ _ => None
|}.

Definition plain_unit : Unit :=
  mkUnit ∅ [] [] None 0%Z [] noErr.


(** Three listed parameters, the info of 6 unreadable; a cache that
    holds 5 and 6 and lacks 8, and a stale cache. *)
Definition three_unit : Unit :=
  mkUnit {[ 5 := 1%Z; 6 := 2%Z; 8 := 3%Z ]} [5; 6; 8] [6] None 0%Z [] noErr.
Definition three_wrapper : AudioUnitWrapper.AudioUnitWrapper :=
  AudioUnitWrapper.mkWrapper three_unit (Some [5; 6; 8]).
Definition stale_settings : AudioUnitWrapper.AudioUnitEffectSettings :=
  AudioUnitWrapper.mkSettings {[ 5 := 7%Z; 6 := 9%Z; 99 := 4%Z ]}.

(** Two listed parameters on the component with a mode. *)
Definition mode_wrapper
  : AudioUnitWrapper.AudioUnitWrapper (H2 := mode_sdk) :=
  AudioUnitWrapper.mkWrapper (H2 := mode_sdk)
    (mkUnit {[ 5 := 1%Z; 8 := 3%Z ]} [5; 8] [] None 0%Z [] noErr)
    (Some [5; 8]).

(** A stereo effect over a component, as constructed: no buffer list is
    allocated yet; [use] is the UseLatency option. *)
Definition effect_of (u : Unit) (use : bool) : AudioUnitEffect.AudioUnitEffect :=
  AudioUnitEffect.mkEffect u 1%Z 2%nat 2%nat 4%nat use false false false
    0%Z None None [] [] 0%nat [].

(** The same effect as [ProcessInitialize] leaves it: ready, with two
    buffer lists of two entries not yet written. *)
Definition ready_effect (u : Unit) (use : bool)
  : AudioUnitEffect.AudioUnitEffect :=
  AudioUnitEffect.mkEffect u 1%Z 2%nat 2%nat 4%nat use false true true
    0%Z (Some [None; None]) (Some [None; None]) [] [] 0%nat [].

(** A generator: no input channel, one output channel. *)
Definition generator_effect : AudioUnitEffect.AudioUnitEffect :=
  AudioUnitEffect.mkEffect (mkUnit ∅ [] [] None 0%Z [] noErr)
    1%Z 0%nat 1%nat 4%nat true false false false
    0%Z None None [] [] 0%nat [].

(** A component with a latency of 100 samples. *)
Definition slow_unit : Unit := mkUnit ∅ [] [] None 100%Z [] noErr.

(** The session that [ProcessInitialize] begins on it. *)
Definition slow_session : AudioUnitEffect.AudioUnitEffect :=
  ready_effect slow_unit true.

(** A component whose render call fails. *)
Definition failing_unit : Unit := mkUnit ∅ [] [] None 0%Z [] (-50)%Z.

(** A component with a class state of five bytes. *)
Definition stateful_unit : Unit :=
  mkUnit ∅ [] [] None 0%Z (String.list_byte_of_string "state") noErr.

(** An initialised master with two initialised slaves, its summing
    buffers and frame counter still holding what an earlier cycle left;
    and a cycle of two calls of constant input, three frames for group 0
    and two for group 1. *)
Definition master_effect : AudioUnitEffect.AudioUnitEffect :=
  AudioUnitEffect.mkEffect plain_unit 1%Z 2%nat 2%nat 4%nat true false
    true true 0%Z (Some [None; None]) (Some [None; None])
    [[9; 9; 9; 9]; [9; 9; 9; 9]]%Z [[7; 7; 7; 7]; [7; 7; 7; 7]]%Z 4%nat
    [ready_effect plain_unit true; ready_effect plain_unit true].
Definition two_calls : list Sessions.RealtimeCall :=
  [ Sessions.mkCall 0%Z [[1; 1; 1]; [2; 2; 2]]%Z [[0; 0; 0]; [0; 0; 0]]%Z 3%nat;
    Sessions.mkCall 1%Z [[10; 10]; [20; 20]]%Z [[0; 0]; [0; 0]]%Z 2%nat ].

(** A store whose legacy entry does not parse, and one whose does. *)
Definition broken_legacy_store : @Host numerics strings host :=
  {[ ("preset"%string, "Parameters"%string) := "!garbled"%string ]}.
Definition legacy_store : @Host numerics strings host :=
  {[ ("preset"%string, "Parameters"%string) := "gain=1"%string ]}.

(** Two channel tables with the same pairs after wildcard resolution. *)
Definition wildcard_table : list AUChannelInfo :=
  [ mkAUChannelInfo 1 1; mkAUChannelInfo (-1) (-1) ]%Z.
Definition shuffled_table : list AUChannelInfo :=
  [ mkAUChannelInfo 2 (-2); mkAUChannelInfo 1 1; mkAUChannelInfo 1 1 ]%Z.

(** The component offers two factory presets. *)
#[export] Instance factory : FactoryPresetsSDK := {|
  GetProperty_FactoryPresets := fun _ =>
    (noErr, [ mkAUPreset 0%Z "Default"%string; mkAUPreset 1%Z "Bright"%string ])
|}.

(** A change of parameter 5, and a change of the latency property
    (kAudioUnitProperty_Latency is property 12). *)
Definition gain_event : AudioUnitEffectLifecycle.AudioUnitEvent :=
  AudioUnitEffectLifecycle.mkEvent
    AudioUnitEffectLifecycle.kAudioUnitEvent_ParameterValueChange 5 0.
Definition latency_event : AudioUnitEffectLifecycle.AudioUnitEvent :=
  AudioUnitEffectLifecycle.mkEvent
    AudioUnitEffectLifecycle.kAudioUnitEvent_PropertyChange 0 12.

(** A cache that holds no listed parameter. *)
Definition unlisted_settings : AudioUnitWrapper.AudioUnitEffectSettings :=
  AudioUnitWrapper.mkSettings {[ 99 := 4%Z ]}.

(** A store that holds a saved blob. *)
Definition saved_store : @Host numerics strings host :=
  {[ ("preset"%string, "Data"%string) := "state"%string ]}.

(** A store with nothing in it. *)
Definition empty_store : @Host numerics strings host := ∅.
End Toy.

(** * Properties *)

(** ** The table-backed component obeys the laws of a parameter store *)

Section ToyLaws.
Import AudioUnitWrapper ParameterStore.

Lemma toy_names_stable : names_stable (H2 := Toy.sdk).
Proof.
  intros u id v id'. unfold named, ParameterInfo_ctor. simpl.
  by destruct (Toy.table u !! id).
Qed.

Lemma toy_sets_are_local : sets_are_local (H2 := Toy.sdk).
Proof.
  intros u id v id' Hne. unfold current_value. simpl.
  destruct (Toy.table u !! id); simpl; [|done].
  by rewrite lookup_insert_ne.
Qed.

Lemma toy_sets_take_or_leave : sets_take_or_leave (H2 := Toy.sdk).
Proof.
  intros u id v. unfold current_value. simpl.
  destruct (Toy.table u !! id) eqn:E; simpl.
  - left. by rewrite lookup_insert_eq.
  - right. by rewrite E.
Qed.
End ToyLaws.



(** ** Four-character codes *)

Section OSTypeProperties.
Context `{WxStrings}.
Import AudioUnitEffectsModule.

Lemma to_N_byte_of_N (n : N) : Byte.to_N (byte_of_N n) = n mod 256.
Proof.
  unfold byte_of_N.
  destruct (Byte.of_N (n mod 256)) as [b|] eqn:E.
  - simpl. by apply Byte.to_of_N.
  - apply Byte.of_N_None_iff in E.
    pose proof (N.mod_upper_bound n 256). lia.
Qed.

Lemma byte_of_N_to_N (b : byte) : byte_of_N (Byte.to_N b) = b.
Proof.
  unfold byte_of_N.
  rewrite N.mod_small by (pose proof (Byte.to_N_bounded b); lia).
  by rewrite Byte.of_to_N.
Qed.

Lemma testbit_small (a k n : N) : a < 2 ^ k -> k <= n -> N.testbit a n = false.
Proof.
  intros Ha Hn. destruct (N.eq_dec a 0) as [->|Hz]; [apply N.bits_0|].
  apply N.bits_above_log2. apply N.log2_lt_pow2 in Ha; lia.
Qed.

Lemma testbit_byte (b : byte) (n : N) : 8 <= n -> N.testbit (Byte.to_N b) n = false.
Proof.
  intros. apply (testbit_small _ 8); [|done].
  pose proof (Byte.to_N_bounded b). change (2 ^ 8) with 256. lia.
Qed.
End OSTypeProperties.

Ltac word_masks :=
  unfold wrap32;
  change 256 with (2 ^ 8);
  rewrite <- ?N.land_ones;
  change 0xff000000 with (N.shiftl (N.ones 8) 24);
  change 0x00ff0000 with (N.shiftl (N.ones 8) 16);
  change 0x0000ff00 with (N.shiftl (N.ones 8) 8);
  change 0x000000ff with (N.ones 8).

Ltac bit_rules :=
  repeat first
    [ rewrite N.land_spec | rewrite N.lor_spec | rewrite N.shiftr_spec'
    | rewrite N.shiftl_spec_low by lia
    | rewrite N.shiftl_spec_high' by lia
    | rewrite N.ones_spec_low by lia
    | rewrite N.ones_spec_high by lia
    | match goal with
      | |- context [N.testbit (Byte.to_N ?b) ?i] =>
          rewrite (testbit_byte b i) by lia
      end
    | rewrite andb_true_r | rewrite andb_false_r | rewrite orb_false_r
    | rewrite orb_false_l | rewrite andb_false_l | rewrite andb_true_l ].

Ltac bit_cases n :=
  destruct (N.lt_ge_cases n 8);
  [| destruct (N.lt_ge_cases n 16);
     [| destruct (N.lt_ge_cases n 24);
        [| destruct (N.lt_ge_cases n 32)]]].

Section OSTypeRoundTrip.
Context `{WxStrings}.
Import AudioUnitEffectsModule.

Lemma pack_swap (x : OSType) :
  x < 2 ^ 32 ->
  wrap32
    (N.lor (N.lor (N.lor (N.shiftl (swap_bytes x mod 256) 24)
                         (N.shiftl (N.shiftr (swap_bytes x) 8 mod 256) 16))
                  (N.shiftl (N.shiftr (swap_bytes x) 16 mod 256) 8))
           (N.shiftr (swap_bytes x) 24 mod 256)) = x.
Proof.
  intros Hx. unfold swap_bytes. word_masks.
  apply N.bits_inj. intros n.
  bit_cases n;
    [| | | | rewrite N.land_spec, (N.ones_spec_high 32 n), andb_false_r by lia;
             symmetry; by apply (testbit_small _ 32)];
    bit_rules; f_equal; lia.
Qed.

Lemma swap_pack (b0 b1 b2 b3 : byte) :
  object_bytes (swap_bytes (pack_bytes b0 b1 b2 b3)) = [b0; b1; b2; b3].
Proof.
  assert (Hb : forall a b, a mod 256 = Byte.to_N b -> byte_of_N a = b).
  { intros a b E. unfold byte_of_N. rewrite E. by rewrite Byte.of_to_N. }
  unfold object_bytes.
  f_equal; [|f_equal; [|f_equal; [|f_equal]]]; apply Hb;
    unfold swap_bytes, pack_bytes; word_masks;
    apply N.bits_inj; intros n;
    (destruct (N.lt_ge_cases n 8);
     [ bit_rules; apply (f_equal (N.testbit _)); lia
     | rewrite !(N.land_spec _ (N.ones 8)), !(N.ones_spec_high 8 n) by lia;
       rewrite testbit_byte by lia; by rewrite ?andb_false_r ]).
Qed.

Lemma ToOSType_of_bytes (s : wxString) (b0 b1 b2 b3 : byte) :
  wxString_ToUTF8 s = [b0; b1; b2; b3] ->
  ToOSType s = Some (pack_bytes b0 b1 b2 b3).
Proof.
  intros Hs. unfold ToOSType, wxCharBuffer_data. rewrite Hs. reflexivity.
Qed.

(** C8 (as amended).  The packed code and its text form are inverse to
    each other wherever the string class keeps the bytes: for a 32-bit
    word [x] whose four text bytes the string class hands back
    unchanged, [ToOSType (FromOSType x)] is [x]; and for a string [s]
    of four single-byte characters that the string class rebuilds from
    its bytes, [FromOSType (ToOSType s)] is [s]. *)
Theorem OSType_conversions_inverse
    (x : OSType) (s : wxString) (b0 b1 b2 b3 : byte) :
  x < 2 ^ 32 ->
  wxString_ToUTF8 (FromOSType x) = object_bytes (swap_bytes x) ->
  wxString_ToUTF8 s = [b0; b1; b2; b3] ->
  wxString_FromUTF8 (wxString_ToUTF8 s) = s ->
  ToOSType (FromOSType x) = Some x /\
FromOSType <$> ToOSType s = Some s.
Proof.
  intros Hx Hcodec Hs Hback. split.
  - rewrite (ToOSType_of_bytes _ _ _ _ _ Hcodec).
    f_equal. unfold pack_bytes. rewrite !to_N_byte_of_N. by apply pack_swap.
  - rewrite (ToOSType_of_bytes _ _ _ _ _ Hs).
    change (Some (FromOSType (pack_bytes b0 b1 b2 b3)) = Some s).
    unfold FromOSType. rewrite swap_pack, <- Hs. by rewrite Hback.
Qed.
End OSTypeRoundTrip.

Section OSTypeExamples.
Import AudioUnitEffectsModule FourCharCodes.

(** With a string class that checks its input, the word with bytes
    [ff 75 76 78] has no text: [FromUTF8] gives the empty string, whose
    buffer holds the terminator alone, and [ToOSType] reads past it. *)
Example FromOSType_not_utf8 :
FromOSType (H := Toy.checking_strings) 0xff757678 = EmptyString /\
ToOSType (H := Toy.checking_strings) EmptyString = None.
Proof. split; vm_compute; reflexivity. Qed.

Lemma OSType_not_utf8_lost :
  ~ every_identifier_converts_back (H := Toy.checking_strings).
Proof.
  intros Hclaim.
  assert (Hx : 0xff757678 < 2 ^ 32) by (vm_compute; reflexivity).
  specialize (Hclaim 0xff757678 Hx). vm_compute in Hclaim. discriminate.
Qed.

Lemma OSType_conversions_inverse_witness :
  ToOSType (FromOSType (H := Toy.checking_strings) 0x61756678)
  = Some 0x61756678 /\
FromOSType (H := Toy.checking_strings)
  <$> ToOSType (H := Toy.checking_strings) "aufx"%string
= Some "aufx"%string.
Proof.
  apply (OSType_conversions_inverse (H := Toy.checking_strings) 0x61756678
           "aufx"%string "a"%byte "u"%byte "f"%byte "x"%byte);
    vm_compute; reflexivity.
Defined.
End OSTypeExamples.

(** ** Channel negotiation *)

Section ChannelNegotiation.
Context `{AudioUnitSDK} `{!EffectHostInterface}.
Import AudioUnitEffect ChannelPolicy.

Lemma resolve_wildcards_fields (ic oc : Z) :
  resolve_wildcards ic oc = (resolve_field ic, resolve_field oc).
Proof.
  unfold resolve_wildcards, resolve_field.
  destruct (ic <? 0)%Z eqn:Ei, (oc <? 0)%Z eqn:Eo; simpl;
    repeat match goal with
           | |- context [(0 <=? ?z)%Z] => destruct (Z.leb_spec 0 z)
           end; simpl; try reflexivity;
    apply Z.ltb_lt in Ei || apply Z.ltb_ge in Ei;
    apply Z.ltb_lt in Eo || apply Z.ltb_ge in Eo; lia.
Qed.

Lemma scan_entry_flags (f : ChannelFlags) (ci : AUChannelInfo) :
  scan_entry f ci =
  mkFlags (haven2m f || has_pattern (0, 1)%Z [ci])
          (haven2s f || has_pattern (0, 2)%Z [ci])
          (havem2n f || has_pattern (1, 0)%Z [ci])
          (haves2n f || has_pattern (2, 0)%Z [ci])
          (havem2m f || has_pattern (1, 1)%Z [ci])
          (haves2s f || has_pattern (2, 2)%Z [ci])
          (havem2s f || has_pattern (1, 2)%Z [ci])
          (haves2m f || has_pattern (2, 1)%Z [ci]).
Proof.
  unfold scan_entry, has_pattern, resolved_pair.
  rewrite resolve_wildcards_fields. simpl.
  generalize (resolve_field (inChannels ci)) (resolve_field (outChannels ci)).
  intros ic oc. destruct f; simpl.
  destruct (Z.eqb_spec ic 0), (Z.eqb_spec ic 1), (Z.eqb_spec ic 2);
    try lia;
    destruct (Z.eqb_spec oc 0), (Z.eqb_spec oc 1), (Z.eqb_spec oc 2);
    try lia; simpl; rewrite ?orb_false_r, ?orb_true_r; reflexivity.
Qed.

Lemma has_pattern_cons p ci table :
  has_pattern p (ci :: table) = has_pattern p [ci] || has_pattern p table.
Proof. unfold has_pattern. simpl. by rewrite orb_false_r. Qed.

Lemma scan_flags (table : list AUChannelInfo) (f : ChannelFlags) :
  foldl scan_entry f table =
  mkFlags (haven2m f || has_pattern (0, 1)%Z table)
          (haven2s f || has_pattern (0, 2)%Z table)
          (havem2n f || has_pattern (1, 0)%Z table)
          (haves2n f || has_pattern (2, 0)%Z table)
          (havem2m f || has_pattern (1, 1)%Z table)
          (haves2s f || has_pattern (2, 2)%Z table)
          (havem2s f || has_pattern (1, 2)%Z table)
          (haves2m f || has_pattern (2, 1)%Z table).
Proof.
  revert f. induction table as [|ci table IH]; intros f.
  - destruct f; simpl. by rewrite !orb_false_r.
  - simpl foldl. rewrite IH, scan_entry_flags.
    cbn [haven2m haven2s havem2n haves2n havem2m haves2s havem2s haves2m].
    rewrite !(has_pattern_cons _ ci table), !orb_assoc. reflexivity.
Qed.

Lemma has_pattern_true (p : Z * Z) (table : list AUChannelInfo) :
  has_pattern p table = true <-> p ∈ map resolved_pair table.
Proof.
  unfold has_pattern. rewrite existsb_exists, list_elem_of_In, in_map_iff.
  split; intros [ci [Hx Hy]]; exists ci.
  - apply andb_prop in Hy as [Ha Hb].
    apply Z.eqb_eq in Ha, Hb. split; [|done].
    destruct p, (resolved_pair ci); simpl in *; congruence.
  - split; [done|]. rewrite Hx. by rewrite !Z.eqb_refl.
Qed.

Lemma has_pattern_elem (p : Z * Z) (table : list AUChannelInfo) :
  has_pattern p table = bool_decide (p ∈ map resolved_pair table).
Proof.
  destruct (has_pattern p table) eqn:E; symmetry.
  - apply bool_decide_eq_true. by apply has_pattern_true.
  - apply bool_decide_eq_false. rewrite <- has_pattern_true. congruence.
Qed.

Lemma negotiate_first_match (dataSize : UInt32) (info : list AUChannelInfo) :
  let '(ins, outs) := negotiate dataSize info in
  (Z.of_nat ins, Z.of_nat outs) =
  first_match (take (N.to_nat (dataSize / 4)) info).
Proof.
  unfold negotiate, first_match.
  generalize (take (N.to_nat (dataSize / 4)) info). intros table.
  rewrite scan_flags. unfold choose_counts, priority_table. simpl.
  rewrite <- !has_pattern_elem.
  repeat match goal with
         | |- context [has_pattern ?p table] =>
             destruct (has_pattern p table); simpl; try reflexivity
         end.
Qed.

(** C1.  Channel negotiation applies the fixed priority table to the
    reported pairs, each wildcard (negative) field read as 2: the first
    of (2,2), (1,1), (1,2), (2,1), (0,1), (0,2), (2,0), (1,0) that occurs
    is chosen; with no constraint table, or with none of these pairs in
    it, the choice is (2,2).  Nothing but the two counts changes. *)
Theorem GetChannelCounts_priority (e : AudioUnitEffect) :
  let e' := GetChannelCounts e in
  (Z.of_nat (mAudioIns e'), Z.of_nat (mAudioOuts e')) =
    chosen_pair (reported_table (mUnit e))
  /\ e' = set_channels e (mAudioIns e') (mAudioOuts e').
Proof.
  unfold GetChannelCounts, reported_table, chosen_pair.
  destruct (GetPropertyInfo_SupportedNumChannels (mUnit e)) as [r1 size1].
  destruct (failed r1); [by split|].
  destruct (GetProperty_SupportedNumChannels (mUnit e) size1)
    as [r2 [size2 info]].
  destruct (failed r2); [by split|].
  pose proof (negotiate_first_match size2 info) as Hn.
  destruct (negotiate size2 info) as [ins outs]. simpl. by split.
Qed.
End ChannelNegotiation.

(** ** The settings cache *)

Section SettingsCache.
Context `{AudioUnitSDK}.
Import AudioUnitWrapper ParameterStore.

(** C9.  [FetchSettings] and [StoreSettings] return true whatever the
    component answers: no failing query or set, not even the failure of
    all of them, shows in the result. *)
Theorem FetchSettings_StoreSettings_return_true
    (w : AudioUnitWrapper) (settings : AudioUnitEffectSettings) :
  fst (FetchSettings w settings) = true /\
  fst (StoreSettings w settings) = true.
Proof.
  unfold FetchSettings, StoreSettings. split.
  - by destruct (ForEachParameter w FetchSettings_visitor _).
  - by destruct (ForEachParameter w (StoreSettings_visitor settings) tt).
Qed.

(** *** The store loop *)

Lemma named_cached_pairs_ext (u u' : AudioUnit)
    (ids : list AudioUnitParameterID) (settings : AudioUnitEffectSettings) :
  (forall id, named u' id = named u id) ->
  named_cached_pairs u' ids settings = named_cached_pairs u ids settings.
Proof.
  intros Hn. unfold named_cached_pairs.
  induction ids as [|id ids IH]; [done|].
  cbn [omap list_omap]. by rewrite Hn, IH.
Qed.

Lemma store_loop (settings : AudioUnitEffectSettings)
    (ids : list AudioUnitParameterID) (u : AudioUnit) :
  names_stable ->
  ForEachParameter_loop (StoreSettings_visitor settings) ids (u, tt) =
  (apply_sets u (named_cached_pairs u ids settings), tt).
Proof.
  intros Hn. revert u. induction ids as [|id ids IH]; intros u; [done|].
  cbn [ForEachParameter_loop fst]. unfold StoreSettings_visitor at 1.
  unfold named_cached_pairs. cbn [omap list_omap].
  fold (named_cached_pairs u ids settings).
  unfold named at 1.
  destruct (mName (ParameterInfo_ctor u id)) as [name|]; [|by rewrite IH].
  destruct (values settings !! id) as [value|] eqn:Ev; [|by rewrite IH].
  cbn [fmap option_fmap option_map].
  destruct (AudioUnitSetParameter u id value) as [result u'] eqn:Es.
  assert (Hpairs : named_cached_pairs u' ids settings
                   = named_cached_pairs u ids settings).
  { apply named_cached_pairs_ext. intros x.
    pose proof (Hn u id value x) as Hx. by rewrite Es in Hx. }
  destruct (failed result); rewrite IH, Hpairs;
    unfold apply_sets; cbn [foldl fst snd]; by rewrite Es.
Qed.

Lemma named_cached_pairs_elem (u : AudioUnit)
    (ids : list AudioUnitParameterID) (settings : AudioUnitEffectSettings)
    (id : AudioUnitParameterID) (v : Float32) :
  (id, v) ∈ named_cached_pairs u ids settings <->
  id ∈ ids /\ named u id = true /\ values settings !! id = Some v.
Proof.
  unfold named_cached_pairs. rewrite list_elem_of_omap. split.
  - intros (x & Hx & Hv). destruct (named u x) eqn:En; [|done].
    destruct (values settings !! x) eqn:Ex; simplify_eq/=. done.
  - intros (Hi & Hn & Hv). exists id. by rewrite Hn, Hv.
Qed.


Lemma StoreSettings_run
    (w : AudioUnitWrapper) (settings : AudioUnitEffectSettings) :
  names_stable ->
  StoreSettings w settings =
    (true, mkWrapper (apply_sets (mUnit w)
                        (named_cached_pairs (mUnit w) (listed_ids w) settings))
                     (mParameters w))
  /\ (forall id v,
        (id, v) ∈ named_cached_pairs (mUnit w) (listed_ids w) settings <->
        id ∈ listed_ids w /\ named (mUnit w) id = true /\
        values settings !! id = Some v).
Proof.
  intros Hn. split; [|apply named_cached_pairs_elem].
  unfold StoreSettings, ForEachParameter, listed_ids.
  destruct (mParameters w) as [ids|]; [|done].
  by rewrite store_loop.
Qed.


(** *** The fetch loop *)

Lemma fetched_cons (u : AudioUnit) (id : AudioUnitParameterID)
    (ids : list AudioUnitParameterID) (k : AudioUnitParameterID) :
  fetched u (id :: ids) k =
  if bool_decide (k = id) && named u k then current_value u k
  else fetched u ids k.
Proof.
  unfold fetched.
  destruct (decide (k = id)) as [->|Hne].
  - rewrite (bool_decide_eq_true_2 (id ∈ id :: ids)) by apply list_elem_of_here.
    rewrite (bool_decide_eq_true_2 (id = id)) by done.
    destruct (named u id); simpl; [done|]. by rewrite andb_false_r.
  - rewrite (bool_decide_eq_false_2 (k = id)) by done. simpl.
    destruct (decide (k ∈ ids)) as [Hin|Hnin].
    + rewrite !bool_decide_eq_true_2; [done|done|by apply list_elem_of_further].
    + rewrite !bool_decide_eq_false_2; [done|done|].
      by intros [?|?]%elem_of_cons.
Qed.

Lemma fetch_loop (ids : list AudioUnitParameterID) (u : AudioUnit)
    (s : AudioUnitEffectSettings) :
  exists s',
    ForEachParameter_loop FetchSettings_visitor ids (u, s) = (u, s') /\
    forall k, values s' !! k =
              match fetched u ids k with
              | Some v => Some v
              | None => values s !! k
              end.
Proof.
  revert s. induction ids as [|id ids IH]; intros s.
  - exists s. split; [done|]. intros k. reflexivity.
  - cbn [ForEachParameter_loop fst]. unfold FetchSettings_visitor at 1.
    assert (Hskip : (named u id = false \/ current_value u id = None) ->
              forall k, fetched u (id :: ids) k = fetched u ids k).
    { intros Hs k. rewrite fetched_cons.
      destruct (decide (k = id)) as [->|Hne].
      - rewrite bool_decide_eq_true_2 by done. simpl.
        unfold fetched.
        destruct Hs as [-> | Hs]; [by rewrite andb_false_r|].
        rewrite Hs. by destruct (named u id), (bool_decide _).
      - by rewrite bool_decide_eq_false_2. }
    pose proof (eq_refl : named u id = named u id) as En.
    unfold named at 2 in En.
    pose proof (eq_refl : current_value u id = current_value u id) as Ec.
    unfold current_value at 2 in Ec.
    destruct (mName (ParameterInfo_ctor u id)) as [name|].
    + destruct (AudioUnitGetParameter u id) as [result value].
      destruct (failed result).
      * destruct (IH s) as (s' & Hrun & Hs'). exists s'. split; [done|].
        intros k. rewrite Hskip by auto. apply Hs'.
      * destruct (IH (mkSettings (<[id := value]> (values s))))
          as (s' & Hrun & Hs').
        exists s'. split; [done|]. intros k.
        rewrite Hs', fetched_cons. cbn [values].
        destruct (decide (k = id)) as [->|Hne].
        -- rewrite bool_decide_eq_true_2 by done. rewrite En, Ec. simpl.
           unfold fetched. rewrite En, Ec, andb_true_r.
           destruct (bool_decide _); [done|]. by rewrite lookup_insert_eq.
        -- rewrite bool_decide_eq_false_2 by done. simpl.
           destruct (fetched u ids k); [done|]. by rewrite lookup_insert_ne.
    + destruct (IH s) as (s' & Hrun & Hs'). exists s'. split; [done|].
      intros k. rewrite Hskip by auto. apply Hs'.
Qed.

Lemma FetchSettings_lookup (w : AudioUnitWrapper)
    (settings : AudioUnitEffectSettings) :
  exists cache,
    FetchSettings w settings = (true, cache) /\
    forall k, values cache !! k =
              match fetched (mUnit w) (listed_ids w) k with
              | Some v => Some v
              | None => (fun _ => f32_zero) <$> values settings !! k
              end.
Proof.
  unfold FetchSettings, ForEachParameter, listed_ids.
  destruct (mParameters w) as [ids|].
  - destruct (fetch_loop ids (mUnit w) (ResetValues settings))
      as (cache & Hrun & Hc).
    exists cache. rewrite Hrun. split; [done|].
    intros k. rewrite Hc. unfold ResetValues. cbn [values default].
    by rewrite lookup_fmap.
  - exists (ResetValues settings). split; [done|]. intros k.
    unfold ResetValues. cbn [values default]. by rewrite lookup_fmap.
Qed.

(** *** What a store of cached values can change *)

Lemma apply_sets_named (u : AudioUnit)
    (calls : list (AudioUnitParameterID * Float32))
    (k : AudioUnitParameterID) :
  names_stable -> named (apply_sets u calls) k = named u k.
Proof.
  intros Hn. revert u. induction calls as [|[id v] calls IH]; intros u; [done|].
  unfold apply_sets. cbn [foldl fst snd].
  fold (apply_sets (snd (AudioUnitSetParameter u id v)) calls).
  by rewrite IH, Hn.
Qed.

Lemma apply_sets_values (cache : AudioUnitEffectSettings) (u : AudioUnit)
    (calls : list (AudioUnitParameterID * Float32))
    (k : AudioUnitParameterID) :
  sets_are_local -> sets_take_or_leave ->
  (forall id v, (id, v) ∈ calls -> values cache !! id = Some v) ->
  current_value (apply_sets u calls) k = current_value u k \/
  exists v, values cache !! k = Some v /\
            current_value (apply_sets u calls) k = Some v.
Proof.
  intros Hl Ht. revert u.
  induction calls as [|[id v] calls IH]; intros u Hc; [by left|].
  unfold apply_sets. cbn [foldl fst snd].
  fold (apply_sets (snd (AudioUnitSetParameter u id v)) calls).
  destruct (IH (snd (AudioUnitSetParameter u id v))) as [Hsame | Hnew].
  { intros id' v' Hin. apply Hc. by apply list_elem_of_further. }
  - rewrite Hsame. destruct (decide (k = id)) as [->|Hne].
    + destruct (Ht u id v) as [Htook | Hleft].
      * right. exists v. split; [|done]. apply Hc. apply list_elem_of_here.
      * by left.
    + left. by apply Hl.
  - by right.
Qed.

(** C5 (as amended).  On a component that behaves as a parameter
    store (setting a parameter does not change which parameters have
    info, leaves the value of every other parameter alone, and leaves
    the parameter itself at the value given or at the one it had),
    fetching, storing the fetched cache untouched and fetching again
    gives the same map as the first fetch, in every state of the
    component and of the cache. *)
Theorem Fetch_Store_Fetch_same_map
    (w : AudioUnitWrapper) (settings : AudioUnitEffectSettings) :
  names_stable -> sets_are_local -> sets_take_or_leave ->
  let cache := snd (FetchSettings w settings) in
  let w' := snd (StoreSettings w cache) in
  FetchSettings w' cache = (true, cache).
Proof.
  intros Hn Hl Ht cache w'.
  destruct (FetchSettings_lookup w settings) as (c1 & Hf1 & Hc1).
  assert (cache = c1) as -> by (unfold cache; by rewrite Hf1).
  destruct (StoreSettings_run w c1 Hn) as [Hstore Hpushed].
  set (pushed := named_cached_pairs (mUnit w) (listed_ids w) c1) in *.
  assert (w' = mkWrapper (apply_sets (mUnit w) pushed) (mParameters w)) as ->
    by (unfold w'; by rewrite Hstore).
  destruct (FetchSettings_lookup
              (mkWrapper (apply_sets (mUnit w) pushed) (mParameters w)) c1)
    as (c2 & Hf2 & Hc2).
  rewrite Hf2. f_equal.
  destruct c1 as [m1], c2 as [m2]. f_equal. cbn [values] in *.
  apply map_eq. intros k. rewrite Hc2.
  change (listed_ids (mkWrapper (apply_sets (mUnit w) pushed) (mParameters w)))
    with (listed_ids w).
  cbn [mUnit]. unfold fetched. rewrite apply_sets_named by done.
  destruct (apply_sets_values (mkSettings m1) (mUnit w) pushed k Hl Ht)
    as [Hsame | (v & Hv & Hnew)].
  { intros id v Hin. by apply Hpushed in Hin as (_ & _ & Hv). }
  - rewrite Hsame. fold (fetched (mUnit w) (listed_ids w) k).
    rewrite (Hc1 k).
    destruct (fetched (mUnit w) (listed_ids w) k); [done|].
    rewrite <- option_fmap_compose. by destruct (values settings !! k).
  - rewrite Hnew. cbn [values] in Hv.
    destruct (bool_decide (k ∈ listed_ids w) && named (mUnit w) k) eqn:Eg.
    + by rewrite Hv.
    + rewrite (Hc1 k). unfold fetched. rewrite Eg.
      rewrite <- option_fmap_compose. by destruct (values settings !! k).
Qed.
End SettingsCache.

Section SettingsCacheExamples.
Import Toy AudioUnitWrapper ParameterStore.



(** A fetch into a stale cache: the readable parameters 5 and 8 take
    the component's values, the unreadable 6 and the unlisted 99 are
    reset to zero. *)
Example FetchSettings_stale :
  FetchSettings three_wrapper stale_settings =
    (true, mkSettings {[ 5 := 1%Z; 6 := 0%Z; 8 := 3%Z; 99 := 0%Z ]}).
Proof. vm_compute. reflexivity. Qed.

(** On the component with a mode, the store of the fetched cache puts
    parameter 5 back to zero when it sets parameter 8, and the second
    fetch reads 0 where the first read 1. *)
Example Fetch_Store_Fetch_with_mode :
  let cache := snd (FetchSettings mode_wrapper (mkSettings ∅)) in
  (values cache !! 5,
   values (snd (FetchSettings (snd (StoreSettings mode_wrapper cache)) cache))
     !! 5)
  = (Some 1%Z, Some 0%Z).
Proof. vm_compute. reflexivity. Qed.

Lemma Fetch_Store_Fetch_changes_map :
  ~ fetch_store_fetch_same mode_wrapper (mkSettings ∅).
Proof.
  unfold fetch_store_fetch_same. intros Hclaim.
  apply (f_equal (fun result => values (snd result) !! 5)) in Hclaim.
  vm_compute in Hclaim. discriminate.
Qed.

Lemma Fetch_Store_Fetch_same_map_witness :
  FetchSettings
    (snd (StoreSettings three_wrapper
            (snd (FetchSettings three_wrapper stale_settings))))
    (snd (FetchSettings three_wrapper stale_settings))
  = (true, snd (FetchSettings three_wrapper stale_settings)).
Proof.
  exact (Fetch_Store_Fetch_same_map three_wrapper stale_settings
           toy_names_stable toy_sets_are_local toy_sets_take_or_leave).
Defined.
End SettingsCacheExamples.

(** ** Latency *)

Section Latency.
Context `{AudioUnitSDK} `{!EffectHostInterface}.
Import AudioUnitEffect Sessions.

Lemma ProcessInitialize_resets_latency (e e1 : AudioUnitEffect) :
  ProcessInitialize e = Some (true, e1) -> mLatencyDone e1 = false.
Proof.
  unfold ProcessInitialize.
  destruct (mAudioIns e =? 0)%nat; [done|].
  destruct (mAudioOuts e =? 0)%nat; [done|].
  intros [= Hinit]. revert Hinit.
  destruct (SetRateAndChannels _) as [ok e'].
  destruct ok; simpl; [|congruence].
  destruct (AudioUnitSetProperty _ _ _) as [r1 u1].
  destruct (failed r1); [congruence|]. cbn [mUnit set_mUnit].
  destruct (AudioUnitReset u1) as [r2 u2].
  destruct (failed r2); [congruence|].
  intros [= <-]. reflexivity.
Qed.

Lemma GetLatency_first (e : AudioUnitEffect) :
  mUseLatency e = true -> mLatencyDone e = false ->
  GetLatency e = (plugin_latency e, set_mLatencyDone e true).
Proof.
  intros Hu Hd. unfold GetLatency, plugin_latency. rewrite Hu, Hd. simpl.
  by destruct (GetProperty_Latency (mUnit e) f64_zero).
Qed.

Lemma GetLatency_zero (e : AudioUnitEffect) :
  mUseLatency e = false \/ mLatencyDone e = true ->
  GetLatency e = (0%Z, e).
Proof.
  intros [Hu|Hd]; unfold GetLatency; [by rewrite Hu|].
  rewrite Hd. by rewrite andb_false_r.
Qed.

Lemma GetLatency_calls_zero (n : nat) (e : AudioUnitEffect) :
  mUseLatency e = false \/ mLatencyDone e = true ->
  GetLatency_calls n e = (replicate n 0%Z, e).
Proof.
  intros Hz. induction n as [|n IH]; [done|].
  cbn [GetLatency_calls]. rewrite GetLatency_zero by done. by rewrite IH.
Qed.

(** C2 (as amended).  In a processing session, begun by a successful
    [ProcessInitialize], with the UseLatency option on, the first call
    of [GetLatency] computes the component's latency and every later
    call of the session returns zero: what is kept is that the latency
    was reported, not its value.  With the option off every call
    returns zero, in any state. *)
Theorem GetLatency_reported_once (e e1 : AudioUnitEffect) (n : nat) :
  ProcessInitialize e = Some (true, e1) ->
  fst (GetLatency_calls (S n) e1) =
    (if mUseLatency e1 then plugin_latency e1 :: replicate n 0%Z
     else replicate (S n) 0%Z)
  /\ (forall e' m, mUseLatency e' = false ->
        fst (GetLatency_calls m e') = replicate m 0%Z).
Proof.
  intros Hinit. apply ProcessInitialize_resets_latency in Hinit.
  split.
  - destruct (mUseLatency e1) eqn:Hu.
    + cbn [GetLatency_calls]. rewrite GetLatency_first by done.
      rewrite GetLatency_calls_zero by (by right). reflexivity.
    + rewrite GetLatency_calls_zero by (by left). reflexivity.
  - intros e' m Hu. rewrite GetLatency_calls_zero by (by left). reflexivity.
Qed.
End Latency.

Section LatencyExamples.
Import Toy AudioUnitEffect Sessions.

Lemma slow_session_begins :
  ProcessInitialize (effect_of slow_unit true) = Some (true, slow_session).
Proof. vm_compute. reflexivity. Qed.

Example GetLatency_twice :
  fst (GetLatency_calls 2 slow_session) = [100%Z; 0%Z].
Proof. vm_compute. reflexivity. Qed.

(** The second call of a session returns zero, not the latency of 100
    samples that the first call returned. *)
Lemma GetLatency_not_cached :
  ~ latency_cached_in_session (effect_of slow_unit true).
Proof.
  intros Hclaim.
  assert (Huse : mUseLatency slow_session = true) by (vm_compute; reflexivity).
  pose proof (Hclaim slow_session 2%nat slow_session_begins Huse) as Hcalls.
  vm_compute in Hcalls. discriminate.
Qed.

Lemma GetLatency_reported_once_witness :
  fst (GetLatency_calls 3 slow_session) = [100%Z; 0%Z; 0%Z].
Proof.
  pose proof (proj1 (GetLatency_reported_once (effect_of slow_unit true)
                       slow_session 2 slow_session_begins)) as Hcalls.
  vm_compute in Hcalls |- *. exact Hcalls.
Defined.
End LatencyExamples.

(** ** Rendering one block *)

Section Rendering.
Context `{AudioUnitSDK} `{!EffectHostInterface}.
Import AudioUnitEffect Sessions.

Lemma render_buffers_length (count : nat) (block : list (list Float32))
    (blockLen : size_t) :
  (count <= length block)%nat ->
  length (render_buffers count block blockLen) = count.
Proof.
  intros Hlen. unfold render_buffers.
  rewrite length_map, length_take. lia.
Qed.

Lemma render_buffers_S (count : nat) (block : list (list Float32))
    (blockLen : size_t) (data : list Float32) :
  block !! count = Some data ->
  render_buffers (S count) block blockLen =
  render_buffers count block blockLen
    ++ [mkAudioBuffer 1 (wrap32 (4 * N.of_nat blockLen)) data].
Proof.
  intros Hrow. unfold render_buffers.
  by rewrite (take_S_r _ _ _ Hrow), map_app.
Qed.

(** The loops over a list that is allocated: the first [count] entries
    view the caller's channels, the others are left as they were. *)
Lemma bind_buffers_ok (count : nat) (block : list (list Float32))
    (blockLen : size_t) (buffers : list (option AudioBuffer)) :
  (count <= length block)%nat -> (count <= length buffers)%nat ->
  bind_buffers count block blockLen (Some buffers) =
  Some ((Some <$> render_buffers count block blockLen) ++ drop count buffers).
Proof.
  unfold bind_buffers. induction count as [|count IH]; intros Hb Hl.
  - by rewrite drop_0.
  - rewrite seq_S, foldl_app, IH by lia. cbn [foldl plus].
    destruct (lookup_lt_is_Some_2 block count) as [data Hdata]; [lia|].
    destruct (lookup_lt_is_Some_2 buffers count) as [old Hold]; [lia|].
    unfold bind_buffer. cbn [mbind option_bind]. rewrite Hdata.
    cbn [mbind option_bind].
    assert (Hlen : length (Some <$> render_buffers count block blockLen)
                   = count)
      by (rewrite length_fmap; apply render_buffers_length; lia).
    rewrite lookup_app_r by lia. rewrite Hlen, Nat.sub_diag.
    rewrite (drop_S _ _ _ Hold). cbn [lookup list_lookup mbind option_bind].
    rewrite insert_app_r_alt by lia. rewrite Hlen, Nat.sub_diag.
    cbn [insert list_insert].
    rewrite (render_buffers_S _ _ _ _ Hdata), fmap_app, <- app_assoc.
    reflexivity.
Qed.

Lemma written_buffers_all (buffers : list AudioBuffer) :
  written_buffers (Some <$> buffers) = Some buffers.
Proof. unfold written_buffers. by apply mapM_fmap_Some. Qed.

(** What [ProcessBlock] does when the buffer lists are allocated for
    the channels of the effect and the caller's arrays hold a pointer
    for each channel. *)
Lemma ProcessBlock_state (e : AudioUnitEffect)
    (inBlock outBlock : list (list Float32)) (blockLen : size_t) :
  buffers_allocated e ->
  (mAudioIns e <= length inBlock)%nat ->
  (mAudioOuts e <= length outBlock)%nat ->
  let inputs := render_buffers (mAudioIns e) inBlock blockLen in
  let outputs := render_buffers (mAudioOuts e) outBlock blockLen in
  let '(result, rendered, u) :=
    AudioUnitRender (mUnit e) (mSampleTime e) (wrap32 (N.of_nat blockLen))
      inputs outputs in
  ProcessBlock e inBlock outBlock blockLen =
    Some (if failed result then 0%nat else blockLen,
          rendered,
          set_mSampleTime
            (set_mUnit
               (set_lists e (Some (Some <$> inputs)) (Some (Some <$> outputs)))
               u)
            (if failed result then mSampleTime e
             else f64_add (mSampleTime e) (f64_of_size_t blockLen))).
Proof.
  intros [Hil Hol] Hin Hout inputs outputs. unfold ProcessBlock.
  destruct (mInputList e) as [il|]; [|done].
  destruct (mOutputList e) as [ol|]; [|done].
  injection Hil as Hil. injection Hol as Hol.
  rewrite !bind_buffers_ok by lia. cbn [mbind option_bind].
  rewrite !drop_ge, !app_nil_r by lia.
  rewrite !written_buffers_all. cbn [mbind option_bind].
  cbn [set_lists mUnit mSampleTime mInputList mOutputList].
  fold inputs outputs.
  destruct (AudioUnitRender _ _ _ _ _) as [[result rendered] u].
  destruct (failed result); [|reflexivity].
  by destruct e.
Qed.

Lemma ProcessBlock_ok (e : AudioUnitEffect)
    (inBlock outBlock : list (list Float32)) (blockLen : size_t) :
  buffers_allocated e ->
  (mAudioIns e <= length inBlock)%nat ->
  (mAudioOuts e <= length outBlock)%nat ->
  exists rendered e',
    ProcessBlock e inBlock outBlock blockLen =
      Some (if failed (render_status e inBlock outBlock blockLen)
            then 0%nat else blockLen, rendered, e')
    /\ mAudioIns e' = mAudioIns e /\ mAudioOuts e' = mAudioOuts e
    /\ length <$> mInputList e' = Some (mAudioIns e)
    /\ length <$> mOutputList e' = Some (mAudioOuts e).
Proof.
  intros Halloc Hin Hout.
  pose proof (ProcessBlock_state e inBlock outBlock blockLen Halloc Hin Hout)
    as Hrun.
  cbv zeta in Hrun. unfold render_status.
  destruct (AudioUnitRender _ _ _ _ _) as [[result rendered] u].
  eexists _, _. split; [exact Hrun|]. cbn.
  rewrite !length_fmap, !render_buffers_length by done. done.
Qed.

(** C6.  On an effect whose buffer lists are allocated for its
    channels, as [ProcessInitialize] leaves them, [ProcessBlock] returns
    the number of frames produced: the frame count asked for when the
    render call succeeds, zero when it fails; in both cases the call
    comes back with a value. *)
Theorem ProcessBlock_frames (e : AudioUnitEffect)
    (inBlock outBlock : list (list Float32)) (blockLen : size_t) :
  buffers_allocated e ->
  (mAudioIns e <= length inBlock)%nat ->
  (mAudioOuts e <= length outBlock)%nat ->
  exists rendered e',
    ProcessBlock e inBlock outBlock blockLen =
      Some (if failed (render_status e inBlock outBlock blockLen)
            then 0%nat else blockLen, rendered, e').
Proof.
  intros Halloc Hin Hout.
  destruct (ProcessBlock_ok e inBlock outBlock blockLen Halloc Hin Hout)
    as (rendered & e' & Hrun & _).
  by exists rendered, e'.
Qed.
End Rendering.

Section RenderingExamples.
Import Toy AudioUnitEffect Sessions.

(** [ProcessInitialize] on the stereo effect allocates both lists. *)
Lemma ready_effect_initialised (u : Unit) (use : bool) :
  ProcessInitialize (effect_of u use) = Some (true, ready_effect u use).
Proof. reflexivity. Qed.

Lemma ready_effect_allocated (u : Unit) (use : bool) :
  buffers_allocated (ready_effect u use).
Proof. split; reflexivity. Qed.

Example ProcessBlock_success :
  fst <$> ProcessBlock (ready_effect plain_unit true)
            [[1; 2; 3]; [4; 5; 6]]%Z [[0; 0; 0]; [0; 0; 0]]%Z 3%nat
  = Some (3%nat, [[1; 2; 3]; [4; 5; 6]]%Z).
Proof. vm_compute. reflexivity. Qed.

Example ProcessBlock_failure :
  fst <$> ProcessBlock (ready_effect failing_unit true)
            [[1; 2; 3]; [4; 5; 6]]%Z [[0; 0; 0]; [0; 0; 0]]%Z 3%nat
  = Some (0%nat, [[1; 2; 3]; [4; 5; 6]]%Z).
Proof. vm_compute. reflexivity. Qed.

(** Before [ProcessInitialize], and after [ProcessFinalize], the lists
    are null and a block has no result. *)
Example ProcessBlock_unallocated :
  ProcessBlock (effect_of plain_unit true)
    [[1; 2; 3]; [4; 5; 6]]%Z [[0; 0; 0]; [0; 0; 0]]%Z 3%nat = None
  /\ ProcessBlock (snd (ProcessFinalize (ready_effect plain_unit true)))
       [[1; 2; 3]; [4; 5; 6]]%Z [[0; 0; 0]; [0; 0; 0]]%Z 3%nat = None.
Proof. split; vm_compute; reflexivity. Qed.

Lemma ProcessBlock_frames_witness :
  exists rendered e',
    ProcessBlock (ready_effect failing_unit true)
      [[1; 2; 3]; [4; 5; 6]]%Z [[0; 0; 0]; [0; 0; 0]]%Z 3%nat
    = Some (0%nat, rendered, e').
Proof.
  apply (ProcessBlock_frames (ready_effect failing_unit true)
           [[1; 2; 3]; [4; 5; 6]]%Z [[0; 0; 0]; [0; 0; 0]]%Z 3%nat);
    [split; reflexivity | simpl; lia | simpl; lia].
Defined.
End RenderingExamples.

(** ** Presets *)

Section Presets.
Context `{AudioUnitSDK} `{!EffectHostInterface}.
Import AudioUnitEffect Sessions PresetStore.

(** C10.  When the serialised class state of the component is empty,
    [SavePreset] performs no operation on the configuration store, so
    the ["Data"] key of the group keeps what it held, and it returns
    true. *)
Theorem SavePreset_empty_data (e : AudioUnitEffect) (h : Host)
    (group : wxString) (data : list byte) :
  serialized_state e group = Some data ->
  length data = 0%nat ->
  fst (fst (SavePreset e h group)) = true /\
  snd (SavePreset e h group) = h /\
  GetPrivateConfig (snd (SavePreset e h group)) group PRESET_KEY
  = GetPrivateConfig h group PRESET_KEY.
Proof.
  unfold serialized_state, SavePreset. intros Hdata Hlen.
  destruct (AudioUnitSetProperty _ _ _) as [r1 u1].
  cbn [snd mUnit set_mUnit] in *.
  destruct (GetProperty_ClassInfo u1) as [r2 content].
  cbn [snd] in Hdata. rewrite Hdata, Hlen. by cbn.
Qed.

(** The legacy branch returns true whatever happens in it. *)
Lemma LoadPreset_legacy_true (e : AudioUnitEffect) (h : Host)
    (group parms : wxString) :
  fst (fst (LoadPreset_legacy e h group parms)) = true.
Proof.
  unfold LoadPreset_legacy.
  destruct (CommandParameters_SetParameters parms) as [parsed eap].
  destruct parsed; [|done].
  destruct (SetAutomationParameters e eap) as [set e1].
  destruct set; [|done].
  destruct (SavePreset e1 h group) as [[saved e2] h2].
  destruct saved; [|done].
  by destruct (RemovePrivateConfig h2 group (wxT "Parameters")).
Qed.

(** What [SavePreset] does to the store: nothing when the state cannot
    be serialised, and one write of the encoded state when it is not
    empty. *)
Lemma SavePreset_store (e : AudioUnitEffect) (h : Host) (group : wxString) :
  match serialized_state e group with
  | None => fst (fst (SavePreset e h group)) = false
            /\ snd (SavePreset e h group) = h
  | Some data =>
      (0 < N.of_nat (length data) < 2 ^ 31)%N ->
      fst (fst (SavePreset e h group)) =
        fst (SetPrivateConfig h group PRESET_KEY (wxBase64Encode data)) /\
      snd (SavePreset e h group) =
        snd (SetPrivateConfig h group PRESET_KEY (wxBase64Encode data))
  end.
Proof.
  unfold serialized_state, SavePreset.
  destruct (AudioUnitSetProperty _ _ _) as [r1 u1].
  cbn [snd mUnit set_mUnit].
  destruct (GetProperty_ClassInfo u1) as [r2 content]. cbn [snd].
  destruct (CFPropertyListCreateData content PRESET_FORMAT) as [data|];
    [|done].
  intros Hlen.
  assert (Hsmall : wrap32 (N.of_nat (length data)) = N.of_nat (length data)).
  { unfold wrap32. apply N.mod_small.
    assert (2 ^ 31 < 2 ^ 32)%N by done. lia. }
  rewrite Hsmall.
  destruct (N.eqb_spec (N.of_nat (length data)) 0) as [Hz|_]; [lia|].
  cbn [negb]. rewrite Nat2N.id, take_ge by done.
  destruct (SetPrivateConfig h group PRESET_KEY (wxBase64Encode data))
    as [ok h'].
  by destruct ok.
Qed.

(** C4 (as amended).  When a group holds a legacy ["Parameters"] entry,
    [LoadPreset] returns true.  If the text parses, the parameters are
    set and the state of the component serialises to data that is not
    empty, the load writes the encoded state under ["Data"], and removes
    the legacy entry only if the store accepted it: the legacy key is
    then absent, ["Data"] holds the encoded state, and a second load
    takes the blob branch; if the store refuses the value, the store is
    as that refused write left it and nothing is removed.  If the text
    does not parse, the parameters cannot be set or the state cannot be
    serialised, the store is left as it was, legacy entry included. *)
Theorem LoadPreset_migrates_legacy (e : AudioUnitEffect) (h : Host)
    (group parms : wxString) :
  removed_keys_are_gone ->
  stored_values_are_found ->
  legacy_removal_keeps_blob ->
  GetPrivateConfig h group (wxT "Parameters") = Some parms ->
  let '(ok, e1, h1) := LoadPreset e h group in
  ok = true /\
  match migrated_state e group parms with
  | None => h1 = h
  | Some data =>
      (0 < N.of_nat (length data) < 2 ^ 31)%N ->
      let '(stored, h') :=
        SetPrivateConfig h group PRESET_KEY (wxBase64Encode data) in
      if stored then
        GetPrivateConfig h1 group (wxT "Parameters") = None /\
        GetPrivateConfig h1 group PRESET_KEY = Some (wxBase64Encode data) /\
        LoadPreset e1 h1 group = LoadPreset_blob e1 h1 group
      else h1 = h'
  end.
Proof.
  intros Hgone Hfound Hkeep Hlegacy.
  unfold LoadPreset at 1. rewrite Hlegacy.
  unfold migrated_state, LoadPreset_legacy.
  destruct (CommandParameters_SetParameters parms) as [parsed eap].
  destruct parsed; [|done].
  destruct (SetAutomationParameters e eap) as [set e1].
  destruct set; [|done].
  pose proof (SavePreset_store e1 h group) as Hsave.
  destruct (serialized_state e1 group) as [data|].
  - destruct (SavePreset e1 h group) as [[saved e2] h2].
    cbn [fst snd] in Hsave.
    pose proof (Hfound h group PRESET_KEY (wxBase64Encode data)) as Hdata.
    destruct (SetPrivateConfig h group PRESET_KEY (wxBase64Encode data))
      as [stored h'].
    cbn [fst snd] in Hsave, Hdata.
    destruct saved.
    + pose proof (Hgone h2 group (wxT "Parameters")) as Hg.
      pose proof (Hkeep h2 group) as Hk.
      destruct (RemovePrivateConfig h2 group (wxT "Parameters"))
        as [removed h3].
      cbn [snd] in Hg, Hk. split; [done|]. intros Hlen.
      destruct (Hsave Hlen) as [<- ->].
      split; [done|]. split; [by rewrite Hk, Hdata|].
      unfold LoadPreset. by rewrite Hg.
    + split; [done|]. intros Hlen. by destruct (Hsave Hlen) as [<- ->].
  - destruct Hsave as [Hfalse Hsame].
    destruct (SavePreset e1 h group) as [[saved e2] h2].
    cbn [fst snd] in Hfalse, Hsame. by subst saved h2.
Qed.
End Presets.

Section PresetExamples.
Import Toy AudioUnitEffect Sessions PresetStore.

Lemma toy_removed_keys_are_gone : removed_keys_are_gone.
Proof. intros h group key. simpl. apply lookup_delete_eq. Qed.

Lemma SavePreset_empty_data_witness :
  fst (fst (SavePreset (effect_of plain_unit true) legacy_store "preset"%string))
  = true /\
  snd (SavePreset (effect_of plain_unit true) legacy_store "preset"%string)
  = legacy_store /\
  GetPrivateConfig
    (snd (SavePreset (effect_of plain_unit true) legacy_store "preset"%string))
    "preset"%string PRESET_KEY
  = GetPrivateConfig legacy_store "preset"%string PRESET_KEY.
Proof.
  apply (SavePreset_empty_data (effect_of plain_unit true) legacy_store
           "preset"%string []); reflexivity.
Defined.

(** A legacy entry that does not parse stays in the store, and the
    next load finds it again. *)
Lemma LoadPreset_keeps_unparsed_legacy :
  ~ legacy_always_removed (effect_of plain_unit true) broken_legacy_store
      "preset"%string.
Proof.
  unfold legacy_always_removed. intros Hclaim.
  assert (Hfound : is_Some (GetPrivateConfig broken_legacy_store
                              "preset"%string (wxT "Parameters")))
    by (vm_compute; eauto).
  specialize (Hclaim Hfound). vm_compute in Hclaim. discriminate.
Qed.

Lemma toy_stored_values_are_found : stored_values_are_found.
Proof. intros h group key value _. simpl. apply lookup_insert_eq. Qed.

Lemma toy_legacy_removal_keeps_blob : legacy_removal_keeps_blob.
Proof. intros h group. simpl. by apply lookup_delete_ne. Qed.

Lemma LoadPreset_migrates_legacy_witness :
  let '(ok, e1, h1) :=
    LoadPreset (effect_of stateful_unit true) legacy_store "preset"%string in
  ok = true /\
  GetPrivateConfig h1 "preset"%string (wxT "Parameters") = None /\
  GetPrivateConfig h1 "preset"%string PRESET_KEY = Some "state"%string /\
  LoadPreset e1 h1 "preset"%string = LoadPreset_blob e1 h1 "preset"%string.
Proof.
  pose proof (LoadPreset_migrates_legacy (effect_of stateful_unit true)
                legacy_store "preset"%string "gain=1"%string
                toy_removed_keys_are_gone toy_stored_values_are_found
                toy_legacy_removal_keeps_blob eq_refl) as Hload.
  destruct (LoadPreset (effect_of stateful_unit true) legacy_store
              "preset"%string) as [[ok e1] h1].
  destruct Hload as [Hok Hstore]. split; [exact Hok|].
  apply Hstore. vm_compute. split; reflexivity.
Defined.

(** The migration on the concrete store: the legacy entry is replaced
    by the blob under ["Data"]. *)
Example LoadPreset_migrated_store :
  snd (LoadPreset (effect_of stateful_unit true) legacy_store "preset"%string)
  = {[ ("preset"%string, "Data"%string) := "state"%string ]}.
Proof. vm_compute. reflexivity. Qed.

(** A component whose state serialises to no byte: [SavePreset] reports
    success without writing, and the load removes the legacy entry with
    nothing stored in its place. *)
Example LoadPreset_empty_state :
  snd (LoadPreset (effect_of plain_unit true) legacy_store "preset"%string)
  = empty_store.
Proof. vm_compute. reflexivity. Qed.
End PresetExamples.

(** ** The realtime cycle *)

Section RealtimeCycle.
Context `{AudioUnitSDK} `{!EffectHostInterface}.
Import AudioUnitEffect Sessions.

(** *** Clearing *)

Lemma clear_rows_all (blockSize : nat) (master : list (list Float32)) :
  Forall (fun row => length row = blockSize) master ->
  clear_rows (length master) blockSize master =
  Some (replicate (length master) (replicate blockSize f32_zero)).
Proof.
  induction 1 as [|row master Hrow Hrest IH]; [done|].
  cbn [length clear_rows]. unfold clear_row.
  rewrite decide_True by lia. cbn [mbind option_bind].
  rewrite IH. cbn [mbind option_bind replicate].
  by rewrite drop_ge, app_nil_r by lia.
Qed.

(** *** Accumulating *)

Lemma accumulate_row_spec (n : nat) (acc inp : list Float32) :
  (n <= length acc)%nat -> (n <= length inp)%nat ->
  exists row,
    accumulate_row n acc inp = Some row /\
    length row = length acc /\
    forall s a, acc !! s = Some a ->
      row !! s = Some (if decide (s < n)%nat
                       then f32_add a (default f32_zero (inp !! s))
                       else a).
Proof.
  revert acc inp. induction n as [|n IH]; intros acc inp Ha Hi.
  - exists acc. split; [done|]. split; [done|]. intros s a Hs.
    by rewrite decide_False by lia.
  - destruct acc as [|a0 acc]; [simpl in Ha; lia|].
    destruct inp as [|x0 inp]; [simpl in Hi; lia|].
    simpl in Ha, Hi.
    destruct (IH acc inp) as (rest & Hrun & Hlen & Hrest); [lia|lia|].
    exists (f32_add a0 x0 :: rest). cbn [accumulate_row].
    rewrite Hrun. split; [done|]. split; [simpl; lia|].
    intros [|s] a Hs.
    + simpl in Hs. injection Hs as <-. by rewrite decide_True by lia.
    + simpl in Hs. change ((f32_add a0 x0 :: rest) !! S s) with (rest !! s).
      change ((x0 :: inp) !! S s) with (inp !! s).
      rewrite (Hrest s a Hs).
      destruct (decide (s < n)%nat), (decide (S s < S n)%nat); done || lia.
Qed.

Lemma accumulate_spec (n : nat) (master inbuf : list (list Float32)) :
  (length master <= length inbuf)%nat ->
  Forall (fun row => (n <= length row)%nat) master ->
  Forall (fun row => (n <= length row)%nat) (take (length master) inbuf) ->
  exists summed,
    accumulate (length master) n master inbuf = Some summed /\
    length summed = length master /\
    Forall2 (fun row row' => length row' = length row) master summed /\
    forall chan s a, sample_at master chan s = Some a ->
      sample_at summed chan s =
      Some (if decide (s < n)%nat
            then f32_add a (default f32_zero (sample_at inbuf chan s))
            else a).
Proof.
  revert inbuf. induction master as [|m master IH]; intros inbuf Hlen Hm Hi.
  - exists []. split; [done|]. split; [done|]. split; [constructor|].
    intros chan s a Hs. done.
  - destruct inbuf as [|i inbuf]; [simpl in Hlen; lia|].
    simpl in Hlen. cbn [length take] in Hi.
    apply Forall_cons in Hm as [Hm0 Hm], Hi as [Hi0 Hi].
    destruct (accumulate_row_spec n m i Hm0 Hi0) as (row & Hrow & Hrl & Hrs).
    destruct (IH inbuf) as (rest & Hrun & Hlr & Hf2 & Hrest); [lia|done|done|].
    exists (row :: rest). cbn [length accumulate].
    rewrite Hrow. cbn [mbind option_bind]. rewrite Hrun.
    split; [done|]. split; [simpl; lia|]. split; [by constructor|].
    intros [|chan] s a Hs; unfold sample_at in *; cbn [lookup list_lookup mbind option_bind] in *.
    + by apply Hrs.
    + by apply Hrest.
Qed.

(** *** One call *)

Lemma call_fits_ext (e e' : AudioUnitEffect) (c : RealtimeCall) :
  mBlockSize e' = mBlockSize e -> mAudioIns e' = mAudioIns e ->
  slave_counts e' = slave_counts e ->
  call_fits e c -> call_fits e' c.
Proof. unfold call_fits. by intros -> -> ->. Qed.

Lemma master_ready_ext (e e' : AudioUnitEffect) :
  master_frame e' = master_frame e ->
  length (mMasterIn e') = length (mMasterIn e) ->
  Forall (fun row => length row = mBlockSize e) (mMasterIn e') ->
  master_ready e -> master_ready e'.
Proof.
  unfold master_frame, master_ready, buffers_allocated.
  intros [= Hu Ht Hmo Hil Hol Hi Ho Hb] Hlen Hrows (Hl & _ & Hout & Halloc).
  rewrite Hmo, Hil, Hol, Hi, Ho, Hb. split; [congruence|]. done.
Qed.

Lemma RealtimeProcess_step (e : AudioUnitEffect) (c : RealtimeCall) :
  master_ready e -> call_fits e c ->
  exists produced rendered e',
    RealtimeProcess e (call_group c) (call_inbuf c) (call_outbuf c)
      (call_numSamples c) = Some (produced, rendered, e') /\
    master_ready e' /\
    master_frame e' = master_frame e /\
    slave_counts e' = slave_counts e /\
    mNumSamples e' = max (call_numSamples c) (mNumSamples e) /\
    forall chan s a, sample_at (mMasterIn e) chan s = Some a ->
      sample_at (mMasterIn e') chan s = Some (add_call chan s a c).
Proof.
  intros Hready (Hn & Hin & Hinrows & Hg & ins & outs & Hslave & Hsi & Hso).
  pose proof Hready as (Hlen & Hrows & Hout & Halloc).
  unfold RealtimeProcess.
  destruct (accumulate_spec (call_numSamples c) (mMasterIn e) (call_inbuf c))
    as (summed & Hacc & Hsl & Hf2 & Hsum).
  { lia. }
  { eapply Forall_impl; [exact Hrows|]. simpl. intros row ->. done. }
  { by rewrite Hlen. }
  rewrite <- Hlen, Hacc. cbn [mbind option_bind].
  rewrite (proj2 (Z.ltb_ge _ _) Hg).
  unfold slave_counts in Hslave.
  apply list_lookup_fmap_Some in Hslave as (slave & Hcounts & Hlook).
  injection Hcounts as -> -> Hsil Hsol.
  cbn [mSlaves set_mNumSamples set_mMasterIn]. rewrite Hlook.
  cbn [mbind option_bind].
  destruct (ProcessBlock_ok slave (call_inbuf c) (call_outbuf c)
              (call_numSamples c) (conj (eq_sym Hsil) (eq_sym Hsol)) Hsi Hso)
    as (rendered & slave' & Hrun & Hi' & Ho' & Hil' & Hol').
  rewrite Hrun. cbn [mbind option_bind].
  eexists _, _, _. split; [reflexivity|].
  split.
  { apply (master_ready_ext e); [reflexivity| | |exact Hready].
    - cbn [mMasterIn set_mSlaves set_mNumSamples set_mMasterIn]. lia.
    - cbn [mMasterIn set_mSlaves set_mNumSamples set_mMasterIn].
      clear -Hrows Hf2. induction Hf2 as [|r r' m m' Hr Hf IH]; [constructor|].
      apply Forall_cons in Hrows as [Hr0 Hrows].
      constructor; [congruence|auto]. }
  split; [reflexivity|].
  split.
  { unfold slave_counts. cbn [mSlaves set_mSlaves set_mNumSamples set_mMasterIn].
    rewrite list_fmap_insert. apply list_insert_id.
    rewrite list_lookup_fmap, Hlook. simpl.
    by rewrite Hi', Ho', Hil', Hol', Hsil, Hsol. }
  split; [reflexivity|].
  intros chan s a Hs. cbn [mMasterIn set_mSlaves set_mNumSamples set_mMasterIn].
  rewrite (Hsum chan s a Hs). reflexivity.
Qed.

(** *** The calls of a cycle *)

Lemma master_frame_counts (e e' : AudioUnitEffect) :
  master_frame e' = master_frame e ->
  mBlockSize e' = mBlockSize e /\ mAudioIns e' = mAudioIns e /\
  mAudioOuts e' = mAudioOuts e.
Proof. unfold master_frame. by intros [= _ _ _ _ _ -> -> ->]. Qed.

Lemma RealtimeProcess_calls_spec (calls : list RealtimeCall)
    (e : AudioUnitEffect) :
  master_ready e -> Forall (call_fits e) calls ->
  exists e2,
    RealtimeProcess_calls e calls = Some e2 /\
    master_ready e2 /\
    master_frame e2 = master_frame e /\
    mNumSamples e2 =
      foldl (fun m c => max (call_numSamples c) m) (mNumSamples e) calls /\
    forall chan s a, sample_at (mMasterIn e) chan s = Some a ->
      sample_at (mMasterIn e2) chan s = Some (foldl (add_call chan s) a calls).
Proof.
  revert e. induction calls as [|c calls IH]; intros e Hready Hfits.
  - exists e. split; [done|]. split; [done|]. split; [done|].
    split; [done|]. by intros chan s a Ha.
  - apply Forall_cons in Hfits as [Hc Hfits].
    destruct (RealtimeProcess_step e c Hready Hc)
      as (produced & rendered & e1 & Hrun & Hready1 & Hframe & Hs & Hn & Hsum).
    destruct (master_frame_counts _ _ Hframe) as (Hb & Hi & Ho).
    destruct (IH e1 Hready1) as (e2 & Hrun2 & Hready2 & Hframe2 & Hn2 & Hsum2).
    { eapply Forall_impl; [exact Hfits|]. intros c'. by apply call_fits_ext. }
    exists e2. cbn [RealtimeProcess_calls]. rewrite Hrun.
    cbn [mbind option_bind]. split; [done|]. split; [done|].
    split; [congruence|].
    split; [by rewrite Hn2, Hn|].
    intros chan s a Ha. cbn [foldl]. apply Hsum2. by apply Hsum.
Qed.

(** C3.  In a cycle that begins with [RealtimeProcessStart] and makes
    any sequence of [RealtimeProcess] calls, every sample of the
    [mAudioIns] summing channels is, when [RealtimeProcessEnd] is
    reached, the sum, in call order and from zero, of the input samples
    of the calls at that channel and frame; and [RealtimeProcessEnd]
    makes the master render once, at its sample time, over the largest
    frame count of the cycle, from buffers that view these summing
    channels into buffers that view the rows of [mMasterOut]: the
    master's unit, output rows and sample time afterwards are those that
    this render call leaves. *)
Theorem RealtimeProcessEnd_renders_sum (e : AudioUnitEffect)
    (calls : list RealtimeCall) :
  master_ready e -> Forall (call_fits e) calls ->
  exists e2 e3,
    cycle_before_end e calls = Some e2 /\
    RealtimeProcessEnd e2 = Some (true, e3) /\
    mNumSamples e2 = max_frames calls /\
    length (mMasterIn e2) = mAudioIns e /\
    (forall chan s, (chan < mAudioIns e)%nat -> (s < mBlockSize e)%nat ->
       sample_at (mMasterIn e2) chan s = Some (sample_sum calls chan s)) /\
    let inputs :=
      render_buffers (mAudioIns e) (mMasterIn e2) (max_frames calls) in
    let outputs :=
      render_buffers (mAudioOuts e) (mMasterOut e) (max_frames calls) in
    let '(result, rendered, u) :=
      AudioUnitRender (mUnit e) (mSampleTime e)
        (wrap32 (N.of_nat (max_frames calls))) inputs outputs in
    mInputList e3 = Some (Some <$> inputs) /\
    mOutputList e3 = Some (Some <$> outputs) /\
    mUnit e3 = u /\
    mMasterOut e3 =
      store_rendered (take (mAudioOuts e) rendered) (mMasterOut e) /\
    mSampleTime e3 =
      (if failed result then mSampleTime e
       else f64_add (mSampleTime e) (f64_of_size_t (max_frames calls))).
Proof.
  intros Hready Hfits. pose proof Hready as (Hlen & Hrows & Hout & Halloc).
  assert (Hclear : clear_rows (mAudioIns e) (mBlockSize e) (mMasterIn e) =
                   Some (replicate (mAudioIns e)
                           (replicate (mBlockSize e) f32_zero)))
    by (rewrite <- Hlen; by apply clear_rows_all).
  unfold cycle_before_end, RealtimeProcessStart.
  rewrite Hclear. cbn [mbind option_bind].
  set (e1 := set_mNumSamples (set_mMasterIn e _) 0%nat).
  assert (Hready1 : master_ready e1).
  { apply (master_ready_ext e); [reflexivity| | |exact Hready]; subst e1;
      cbn [mMasterIn set_mNumSamples set_mMasterIn].
    - by rewrite length_replicate.
    - apply Forall_replicate. by rewrite length_replicate. }
  destruct (RealtimeProcess_calls_spec calls e1 Hready1)
    as (e2 & Hrun & Hready2 & Hframe & Hn & Hsum).
  { eapply Forall_impl; [exact Hfits|]. intros c. by apply call_fits_ext. }
  assert (Hframe2 : master_frame e2 = master_frame e) by exact Hframe.
  destruct (master_frame_counts _ _ Hframe2) as (Hb & Hi & Ho).
  destruct Hready2 as (Hlen2 & Hrows2 & Hout2 & Halloc2).
  assert (Hmax : mNumSamples e2 = max_frames calls) by exact Hn.
  pose proof (ProcessBlock_state e2 (mMasterIn e2) (mMasterOut e2)
                (mNumSamples e2) Halloc2) as Hend.
  cbv zeta in Hend.
  unfold master_frame in Hframe2.
  injection Hframe2 as Hu Ht Hmo Hil Hol _ _ _.
  rewrite Hu, Ht, Hmo, Hi, Ho, Hmax in Hend.
  exists e2. cbv zeta.
  destruct (AudioUnitRender _ _ _ _ _) as [[result rendered] u].
  eexists. rewrite Hrun. split; [done|].
  unfold RealtimeProcessEnd. rewrite Hmax, Hmo, Ho.
  rewrite Hend by (rewrite ?Hlen2; lia).
  cbn [mbind option_bind]. split; [reflexivity|].
  split; [reflexivity|]. split; [lia|]. split.
  { intros chan s Hchan Hs. apply Hsum.
    unfold sample_at. subst e1. cbn [mMasterIn set_mNumSamples set_mMasterIn].
    rewrite lookup_replicate_2 by lia. cbn [mbind option_bind].
    by rewrite lookup_replicate_2 by lia. }
  cbn. by repeat split.
Qed.
End RealtimeCycle.

Section RealtimeExamples.
Import Toy AudioUnitEffect Sessions.

(** Two slaves of constant input: the summing channels hold the sums
    over the frames each call has, and the counter the larger count. *)
Example cycle_of_two_calls :
  (fun e => (mMasterIn e, mNumSamples e)) <$>
    cycle_before_end master_effect two_calls
  = Some ([[11; 11; 1; 0]; [22; 22; 2; 0]]%Z, 3%nat).
Proof. vm_compute. reflexivity. Qed.

(** The master pass over them: the component of the example copies its
    input, so the output rows end as the sums, after three frames. *)
Example cycle_end_of_two_calls :
  (fun e => (mMasterOut e.2, mSampleTime e.2)) <$>
    (cycle_before_end master_effect two_calls ≫= RealtimeProcessEnd)
  = Some ([[11; 11; 1; 0]; [22; 22; 2; 0]]%Z, 3%Z).
Proof. vm_compute. reflexivity. Qed.

Lemma master_effect_ready : master_ready master_effect.
Proof.
  split; [reflexivity|]. split; [by repeat constructor|].
  split; [simpl; lia|]. split; reflexivity.
Qed.

Lemma two_calls_fit : Forall (call_fits master_effect) two_calls.
Proof.
  repeat constructor; simpl; try lia;
    eexists _, _; (split; [reflexivity|]); simpl; lia.
Qed.

Lemma RealtimeProcessEnd_renders_sum_witness :
  exists e2 e3,
    cycle_before_end master_effect two_calls = Some e2 /\
    RealtimeProcessEnd e2 = Some (true, e3) /\
    mNumSamples e2 = max_frames two_calls /\
    length (mMasterIn e2) = mAudioIns master_effect /\
    (forall chan s,
       (chan < mAudioIns master_effect)%nat ->
       (s < mBlockSize master_effect)%nat ->
       sample_at (mMasterIn e2) chan s = Some (sample_sum two_calls chan s)) /\
    let inputs :=
      render_buffers (mAudioIns master_effect) (mMasterIn e2)
        (max_frames two_calls) in
    let outputs :=
      render_buffers (mAudioOuts master_effect) (mMasterOut master_effect)
        (max_frames two_calls) in
    let '(result, rendered, u) :=
      AudioUnitRender (mUnit master_effect) (mSampleTime master_effect)
        (wrap32 (N.of_nat (max_frames two_calls))) inputs outputs in
    mInputList e3 = Some (Some <$> inputs) /\
    mOutputList e3 = Some (Some <$> outputs) /\
    mUnit e3 = u /\
    mMasterOut e3 =
      store_rendered (take (mAudioOuts master_effect) rendered)
        (mMasterOut master_effect) /\
    mSampleTime e3 =
      (if failed result then mSampleTime master_effect
       else f64_add (mSampleTime master_effect)
              (f64_of_size_t (max_frames two_calls))).
Proof.
  exact (RealtimeProcessEnd_renders_sum master_effect two_calls
           master_effect_ready two_calls_fit).
Defined.
End RealtimeExamples.

(** ** Initialisation keeps its flags honest *)

Section Initialisation.
Context `{AudioUnitSDK} `{!EffectHostInterface}.
Import AudioUnitEffect Sessions.

Ltac step_calls :=
  repeat (match goal with
          | |- context [if (0 <? ?n)%nat then _ else _] =>
              destruct (0 <? n)%nat
          | |- context [if failed ?r then _ else _] => destruct (failed r)
          | |- context [AudioUnitSetProperty ?u ?p ?s] =>
              destruct (AudioUnitSetProperty u p s)
          | |- context [AudioUnitInitialize ?u] =>
              destruct (AudioUnitInitialize u)
          | |- context [AudioUnitUninitialize ?u] =>
              destruct (AudioUnitUninitialize u)
          | |- context [AudioUnitReset ?u] => destruct (AudioUnitReset u)
          end; cbn).

Lemma SetRateAndChannels_only_unit (e : AudioUnitEffect) :
  snd (SetRateAndChannels e) =
  set_mUnitInitialized
    (set_mUnit e (mUnit (snd (SetRateAndChannels e))))
    (fst (SetRateAndChannels e)).
Proof.
  unfold SetRateAndChannels. destruct e as [u0 rate ins outs bs use done
    ready init time il ol mi mo ns sl]. cbn.
  destruct init, ins, outs; cbn; step_calls; reflexivity.
Qed.

Lemma SetRateAndChannels_frame (e : AudioUnitEffect) :
  exists u,
    SetRateAndChannels e =
    (fst (SetRateAndChannels e),
     set_mUnitInitialized (set_mUnit e u) (fst (SetRateAndChannels e))).
Proof.
  exists (mUnit (snd (SetRateAndChannels e))).
  rewrite <- SetRateAndChannels_only_unit. apply surjective_pairing.
Qed.

(** X1.  [SetRateAndChannels] uninitialises a unit that was
    initialised, then makes its calls in order (sample rate on the
    global scope; sample rate and stream format on the input scope when
    there is an input channel; the same on the output scope when there
    is an output channel; the initialisation) and stops at the first
    that fails.  Its result, and the [mUnitInitialized] flag it leaves,
    tell whether every call succeeded; apart from the unit and that flag
    it changes nothing. *)
Theorem SetRateAndChannels_flag_is_result (e : AudioUnitEffect) :
  let unit :=
    if mUnitInitialized e then snd (AudioUnitUninitialize (mUnit e))
    else mUnit e in
  let '(ok, unit) := until_failure (configuration_calls e) unit in
  SetRateAndChannels e = (ok, set_mUnitInitialized (set_mUnit e unit) ok).
Proof.
  unfold SetRateAndChannels, configuration_calls.
  destruct e as [u0 rate ins outs bs use done ready init time il ol mi mo
                   ns sl]. cbn.
  destruct init, ins, outs; cbn; step_calls; reflexivity.
Qed.

Lemma ProcessInitialize_frame (e : AudioUnitEffect) :
  match ProcessInitialize e with
  | None => mAudioIns e = 0%nat \/ mAudioOuts e = 0%nat
  | Some (ok, e') =>
      (0 < mAudioIns e)%nat /\ (0 < mAudioOuts e)%nat /\
      exists u init ready done,
        e' =
        mkEffect u (mSampleRate e) (mAudioIns e) (mAudioOuts e)
          (mBlockSize e) (mUseLatency e) done ready init f64_zero
          (Some (replicate (mAudioIns e) None))
          (Some (replicate (mAudioOuts e) None))
          (mMasterIn e) (mMasterOut e) (mNumSamples e) (mSlaves e) /\
        if ok
        then ready = true /\ done = false /\ init = true
        else ready = mReady e /\ done = mLatencyDone e
  end.
Proof.
  unfold ProcessInitialize.
  destruct (Nat.eqb_spec (mAudioIns e) 0) as [|Hins]; [by left|].
  destruct (Nat.eqb_spec (mAudioOuts e) 0) as [|Houts]; [by right|].
  set (e0 := set_mSampleTime _ f64_zero).
  pose proof (SetRateAndChannels_only_unit e0) as Hf.
  destruct (SetRateAndChannels e0) as [ok e1]. cbn [fst snd] in Hf.
  rewrite Hf. generalize (mUnit e1). intros u1. clear Hf e1.
  destruct ok; cbn [negb fst snd].
  - cbn [mUnit set_mUnit set_mUnitInitialized].
    destruct (AudioUnitSetProperty u1 _ _) as [r1 u2].
    destruct (failed r1).
    + split; [lia|]. split; [lia|].
      eexists _, _, _, _. split; [reflexivity|]. by split.
    + cbn [mUnit set_mUnit]. destruct (AudioUnitReset u2) as [r2 u3].
      destruct (failed r2); (split; [lia|]); (split; [lia|]);
        eexists _, _, _, _; (split; [reflexivity|]); by split.
  - split; [lia|]. split; [lia|].
    eexists _, _, _, _. split; [reflexivity|]. by split.
Qed.

(** X2.  [ProcessInitialize] has a result exactly when the effect has
    an input and an output channel: with none of either it writes past
    the end of an array of length zero.  When it has one, the sample
    time is reset and each buffer list holds one entry, not yet
    written, for each channel.  When it succeeds the effect is ready,
    its unit initialised and the latency not yet reported; when it
    fails, the ready flag and the latency flag are left as they were,
    so an effect that was ready before a failed re-initialisation still
    says it is. *)
Theorem ProcessInitialize_outcome (e : AudioUnitEffect) :
  match ProcessInitialize e with
  | None => mAudioIns e = 0%nat \/ mAudioOuts e = 0%nat
  | Some (ok, e') =>
      (0 < mAudioIns e)%nat /\ (0 < mAudioOuts e)%nat /\
      mSampleTime e' = f64_zero /\
      mInputList e' = Some (replicate (mAudioIns e) None) /\
      mOutputList e' = Some (replicate (mAudioOuts e) None) /\
      mAudioIns e' = mAudioIns e /\ mAudioOuts e' = mAudioOuts e /\
      if ok
      then mReady e' = true /\ mLatencyDone e' = false /\
           mUnitInitialized e' = true
      else mReady e' = mReady e /\ mLatencyDone e' = mLatencyDone e
  end.
Proof.
  pose proof (ProcessInitialize_frame e) as Hframe.
  destruct (ProcessInitialize e) as [[ok e']|]; [|exact Hframe].
  destruct Hframe as (Hins & Houts & u & init & ready & done & -> & Hflags).
  cbn. do 7 (split; [done|]). exact Hflags.
Qed.

(** X3.  [RealtimeInitialize] has a result exactly when the effect has
    an input and an output channel.  Whether or not the initialisation
    then succeeds, it leaves the buffers as the realtime cycle needs
    them: one row of [mBlockSize] zeros for each input channel, one row
    of [mBlockSize] floats for each output channel, holding whatever the
    allocation found there, and both buffer lists allocated. *)
Theorem RealtimeInitialize_master_ready (e : AudioUnitEffect)
    (fresh : nat -> nat -> Float32) :
  match RealtimeInitialize e fresh with
  | None => mAudioIns e = 0%nat \/ mAudioOuts e = 0%nat
  | Some (ok, e') =>
      master_ready e' /\
      mMasterIn e' =
        replicate (mAudioIns e) (replicate (mBlockSize e) f32_zero) /\
      mMasterOut e' =
        ((fun c => fresh c <$> seq 0 (mBlockSize e))
           <$> seq 0 (mAudioOuts e)) /\
      mAudioIns e' = mAudioIns e /\ mAudioOuts e' = mAudioOuts e /\
      mBlockSize e' = mBlockSize e
  end.
Proof.
  unfold RealtimeInitialize. cbv zeta.
  set (e1 := set_mMasterOut _ _).
  pose proof (ProcessInitialize_frame e1) as Hframe.
  destruct (ProcessInitialize e1) as [[ok e']|]; [|exact Hframe].
  destruct Hframe as (_ & _ & u & init & ready & done & -> & _).
  subst e1. unfold master_ready, buffers_allocated. cbn.
  rewrite !length_replicate, length_fmap, length_seq.
  repeat split; try done.
  apply Forall_replicate. by rewrite length_replicate.
Qed.
End Initialisation.

Section InitialisationExamples.
Import Toy AudioUnitEffect Sessions.

(** A generator, as [GetChannelCounts] can make one, has no input
    channel: its initialisation has no result. *)
Example ProcessInitialize_generator :
  ProcessInitialize generator_effect = None.
Proof. reflexivity. Qed.

Example RealtimeInitialize_stereo :
  (fun r => (mMasterIn r.2, mMasterOut r.2)) <$>
    RealtimeInitialize (effect_of plain_unit true)
      (fun c s => Z.of_nat (10 * c + s))
  = Some ([[0; 0; 0; 0]; [0; 0; 0; 0]]%Z, [[0; 1; 2; 3]; [10; 11; 12; 13]]%Z).
Proof. vm_compute. reflexivity. Qed.
End InitialisationExamples.


(** ** What a block and a realtime call leave behind *)

Section RenderingMore.
Context `{AudioUnitSDK} `{!EffectHostInterface}.
Import AudioUnitEffect Sessions.

(** X4.  On an effect whose buffer lists are allocated for its
    channels, a block advances the sample time by its frame count when
    the render call succeeds and leaves it where it was when the call
    fails; the entries of the two buffer lists are left viewing the
    caller's channels, and besides the sample time, the unit and the
    two buffer lists, [ProcessBlock] changes nothing of the effect. *)
Theorem ProcessBlock_sample_time (e : AudioUnitEffect)
    (inBlock outBlock : list (list Float32)) (blockLen : size_t) :
  buffers_allocated e ->
  (mAudioIns e <= length inBlock)%nat ->
  (mAudioOuts e <= length outBlock)%nat ->
  exists produced rendered e',
    ProcessBlock e inBlock outBlock blockLen = Some (produced, rendered, e') /\
    mSampleTime e' =
      (if failed (render_status e inBlock outBlock blockLen)
       then mSampleTime e
       else f64_add (mSampleTime e) (f64_of_size_t blockLen)) /\
    e' = set_mSampleTime
           (set_mUnit
              (set_lists e
                 (Some (Some <$> render_buffers (mAudioIns e) inBlock blockLen))
                 (Some (Some <$> render_buffers (mAudioOuts e) outBlock
                                   blockLen)))
              (mUnit e'))
           (mSampleTime e').
Proof.
  intros Halloc Hin Hout.
  pose proof (ProcessBlock_state e inBlock outBlock blockLen Halloc Hin Hout)
    as Hrun.
  cbv zeta in Hrun. unfold render_status.
  destruct (AudioUnitRender _ _ _ _ _) as [[result rendered] u].
  eexists _, rendered, _. split; [exact Hrun|]. by split.
Qed.

(** X5.  With the buffers of the master and the buffer lists of the
    slave allocated, [RealtimeProcess] hands the block to the slave of
    the group and to no other instance: it returns what that slave's
    [ProcessBlock] returns, the frame count or zero, replaces that
    slave alone, and leaves the master's own unit untouched. *)
Theorem RealtimeProcess_delegates (e : AudioUnitEffect) (c : RealtimeCall) :
  master_ready e -> call_fits e c ->
  exists slave slave' produced rendered e',
    mSlaves e !! Z.to_nat (call_group c) = Some slave /\
    ProcessBlock slave (call_inbuf c) (call_outbuf c) (call_numSamples c)
      = Some (produced, rendered, slave') /\
    RealtimeProcess e (call_group c) (call_inbuf c) (call_outbuf c)
      (call_numSamples c) = Some (produced, rendered, e') /\
    produced =
      (if failed (render_status slave (call_inbuf c) (call_outbuf c)
                    (call_numSamples c))
       then 0%nat else call_numSamples c) /\
    mUnit e' = mUnit e /\
    mSlaves e' = <[Z.to_nat (call_group c) := slave']> (mSlaves e).
Proof.
  intros (Hlen & Hrows & Hout & Halloc)
         (Hn & Hin & Hinrows & Hg & ins & outs & Hslave & Hsi & Hso).
  unfold RealtimeProcess.
  destruct (accumulate_spec (call_numSamples c) (mMasterIn e) (call_inbuf c))
    as (summed & Hacc & _).
  { lia. }
  { eapply Forall_impl; [exact Hrows|]. simpl. intros row ->. done. }
  { by rewrite Hlen. }
  rewrite <- Hlen, Hacc. cbn [mbind option_bind].
  rewrite (proj2 (Z.ltb_ge _ _) Hg).
  unfold slave_counts in Hslave.
  apply list_lookup_fmap_Some in Hslave as (slave & Hcounts & Hlook).
  injection Hcounts as -> -> Hsil Hsol.
  cbn [mSlaves set_mNumSamples set_mMasterIn]. rewrite Hlook.
  cbn [mbind option_bind].
  pose proof (ProcessBlock_state slave (call_inbuf c) (call_outbuf c)
                (call_numSamples c) (conj (eq_sym Hsil) (eq_sym Hsol))
                Hsi Hso) as Hrun.
  cbv zeta in Hrun.
  destruct (AudioUnitRender _ _ _ _ _) as [[result rendered] u] eqn:Erender.
  rewrite Hrun. cbn [mbind option_bind].
  eexists slave, _, _, rendered, _.
  split; [done|]. split; [exact Hrun|]. split; [reflexivity|].
  unfold render_status. rewrite Erender.
  split; [reflexivity|]. split; reflexivity.
Qed.
End RenderingMore.

Section RenderingMoreExamples.
Import Toy AudioUnitEffect Sessions.

Lemma ProcessBlock_sample_time_witness :
  exists produced rendered e',
    ProcessBlock (ready_effect plain_unit true)
      [[1; 2; 3]; [4; 5; 6]]%Z [[0; 0; 0]; [0; 0; 0]]%Z 3%nat
    = Some (produced, rendered, e') /\
    mSampleTime e' = 3%Z /\
    e' = set_mSampleTime
           (set_mUnit
              (set_lists (ready_effect plain_unit true)
                 (Some (Some <$> render_buffers 2 [[1; 2; 3]; [4; 5; 6]]%Z
                                   3%nat))
                 (Some (Some <$> render_buffers 2 [[0; 0; 0]; [0; 0; 0]]%Z
                                   3%nat)))
              (mUnit e'))
           (mSampleTime e').
Proof.
  apply (ProcessBlock_sample_time (ready_effect plain_unit true)
           [[1; 2; 3]; [4; 5; 6]]%Z [[0; 0; 0]; [0; 0; 0]]%Z 3%nat);
    [split; reflexivity | simpl; lia | simpl; lia].
Defined.

Lemma first_call_fits : call_fits master_effect (mkCall 0%Z
    [[1; 1; 1]; [2; 2; 2]]%Z [[0; 0; 0]; [0; 0; 0]]%Z 3%nat).
Proof.
  repeat constructor; simpl; try lia;
    eexists _, _; (split; [reflexivity|]); simpl; lia.
Qed.

Lemma RealtimeProcess_delegates_witness :
  exists slave slave' produced rendered e',
    mSlaves master_effect !! Z.to_nat 0 = Some slave /\
    ProcessBlock slave [[1; 1; 1]; [2; 2; 2]]%Z [[0; 0; 0]; [0; 0; 0]]%Z 3%nat
      = Some (produced, rendered, slave') /\
    RealtimeProcess master_effect 0%Z
      [[1; 1; 1]; [2; 2; 2]]%Z [[0; 0; 0]; [0; 0; 0]]%Z 3%nat
      = Some (produced, rendered, e') /\
    produced =
      (if failed (render_status slave
                    [[1; 1; 1]; [2; 2; 2]]%Z [[0; 0; 0]; [0; 0; 0]]%Z 3%nat)
       then 0%nat else 3%nat) /\
    mUnit e' = mUnit master_effect /\
    mSlaves e' = <[Z.to_nat 0 := slave']> (mSlaves master_effect).
Proof.
  exact (RealtimeProcess_delegates master_effect
           (mkCall 0%Z [[1; 1; 1]; [2; 2; 2]]%Z [[0; 0; 0]; [0; 0; 0]]%Z 3%nat)
           master_effect_ready first_call_fits).
Defined.
End RenderingMoreExamples.

(** ** More on the negotiated channel counts *)

Section ChannelsMore.
Context `{AudioUnitSDK} `{!EffectHostInterface}.
Import AudioUnitEffect AudioUnitEffectLifecycle ChannelPolicy.

Lemma take_whole_table (table : list AUChannelInfo) :
  take (N.to_nat (4 * N.of_nat (length table) / 4)) table = table.
Proof.
  rewrite N.mul_comm, N.div_mul by done. rewrite Nat2N.id.
  by apply take_ge.
Qed.

Lemma has_pattern_same_pairs (p : Z * Z) (t1 t2 : list AUChannelInfo) :
  (forall q, q ∈ map resolved_pair t1 <-> q ∈ map resolved_pair t2) ->
  has_pattern p t1 = has_pattern p t2.
Proof.
  intros Hsame. rewrite !has_pattern_elem.
  apply bool_decide_ext, Hsame.
Qed.

(** X6.  The negotiated counts depend only on which pairs the table
    holds once the wildcards are resolved: tables with the same pairs,
    in any order and any number of times, give the same counts. *)
Theorem negotiate_same_pairs (t1 t2 : list AUChannelInfo) :
  (forall q, q ∈ map resolved_pair t1 <-> q ∈ map resolved_pair t2) ->
  negotiate (4 * N.of_nat (length t1)) t1 =
  negotiate (4 * N.of_nat (length t2)) t2.
Proof.
  intros Hsame. unfold negotiate. rewrite !take_whole_table, !scan_flags.
  by rewrite !(has_pattern_same_pairs _ t1 t2 Hsame).
Qed.

Lemma choose_counts_range (f : ChannelFlags) :
  (fst (choose_counts f) <= 2)%nat /\ (snd (choose_counts f) <= 2)%nat /\
  (0 < fst (choose_counts f) + snd (choose_counts f))%nat.
Proof.
  unfold choose_counts.
  destruct (haves2s f), (havem2m f), (havem2s f), (haves2m f),
           (haven2m f), (haven2s f), (haves2n f), (havem2n f);
    simpl; lia.
Qed.

Lemma GetChannelCounts_range (e : AudioUnitEffect) :
  (mAudioIns (GetChannelCounts e) <= 2)%nat /\
  (mAudioOuts (GetChannelCounts e) <= 2)%nat /\
  (0 < mAudioIns (GetChannelCounts e) + mAudioOuts (GetChannelCounts e))%nat.
Proof.
  unfold GetChannelCounts.
  destruct (GetPropertyInfo_SupportedNumChannels (mUnit e)) as [r1 size1].
  destruct (failed r1); [simpl; lia|].
  destruct (GetProperty_SupportedNumChannels (mUnit e) size1)
    as [r2 [size2 info]].
  destruct (failed r2); [simpl; lia|].
  unfold negotiate.
  pose proof (choose_counts_range
                (foldl scan_entry no_flags (take (N.to_nat (size2 / 4)) info)))
    as Hrange.
  destruct (choose_counts _) as [ins outs]. exact Hrange.
Qed.

(** X7.  Whatever the component reports, [GetChannelCounts] leaves at
    most two input and two output channels and never none of both, so
    the effect always has a type: [GetType] is never [EffectTypeNone],
    it is a generator exactly when no input was chosen, an analyser
    exactly when no output was chosen, and realtime is supported
    exactly when both counts are positive. *)
Theorem GetChannelCounts_gives_a_type (e : AudioUnitEffect) :
  let e' := GetChannelCounts e in
  (mAudioIns e' <= 2)%nat /\ (mAudioOuts e' <= 2)%nat /\
  GetType e' <> EffectTypeNone /\
  GetType e' =
    (if (mAudioIns e' =? 0)%nat then EffectTypeGenerate
     else if (mAudioOuts e' =? 0)%nat then EffectTypeAnalyze
     else EffectTypeProcess) /\
  SupportsRealtime e' =
    negb (mAudioIns e' =? 0)%nat && negb (mAudioOuts e' =? 0)%nat.
Proof.
  cbn zeta. destruct (GetChannelCounts_range e) as (Hi & Ho & Hpos).
  unfold SupportsRealtime, GetType.
  destruct (mAudioIns (GetChannelCounts e)) as [|i],
           (mAudioOuts (GetChannelCounts e)) as [|o];
    simpl in *; repeat split; try done; lia.
Qed.
End ChannelsMore.

Section ChannelsMoreExamples.
Import Toy AudioUnitEffect ChannelPolicy.

Lemma negotiate_same_pairs_witness :
  negotiate (4 * N.of_nat (length wildcard_table)) wildcard_table =
  negotiate (4 * N.of_nat (length shuffled_table)) shuffled_table.
Proof.
  apply (negotiate_same_pairs wildcard_table shuffled_table).
  intros q. cbn. set_solver.
Defined.

(** A mono pair and a fully wildcarded pair: the wildcards count as
    stereo, which wins. *)
Example negotiate_wildcard_table :
  negotiate (4 * N.of_nat (length wildcard_table)) wildcard_table
  = (2%nat, 2%nat).
Proof. vm_compute. reflexivity. Qed.
End ChannelsMoreExamples.

(** ** Loading and saving the blob *)

Section PresetsMore.
Context `{AudioUnitSDK} `{!EffectHostInterface}.
Import AudioUnitEffect Sessions PresetStore.

Lemma LoadPreset_blob_nothing (e : AudioUnitEffect) (h : Host)
    (group : wxString) :
  decoded_content h group = None ->
  LoadPreset_blob e h group = (false, e, h).
Proof.
  unfold decoded_content, LoadPreset_blob.
  destruct (GetPrivateConfig h group PRESET_KEY) as [parms|]; [|done].
  cbn [mbind option_bind].
  destruct (length (wxBase64Decode parms) =? 0)%nat; [done|].
  destruct (CFDataCreateWithBytesNoCopy _) as [data|]; [|done].
  cbn [mbind option_bind].
  by destruct (CFPropertyListCreateWithData data).
Qed.

(** X8.  With no legacy entry and nothing usable under ["Data"] (the
    key is missing, the text decodes to no byte, or CoreFoundation
    cannot read the bytes), [LoadPreset] returns false and leaves both
    the effect and the store exactly as they were. *)
Theorem LoadPreset_nothing_to_load (e : AudioUnitEffect) (h : Host)
    (group : wxString) :
  GetPrivateConfig h group (wxT "Parameters") = None ->
  decoded_content h group = None ->
  LoadPreset e h group = (false, e, h).
Proof.
  intros Hlegacy Hnone. unfold LoadPreset. rewrite Hlegacy.
  by apply LoadPreset_blob_nothing.
Qed.

Lemma presets_to_slaves (content : CFPropertyListRef)
    (slaves done : list AudioUnitEffect) (u : AudioUnit) :
  snd (foldl (preset_to_slave content) (u, done) slaves) =
  done ++ (slave_with_preset content <$> slaves).
Proof.
  revert u done. induction slaves as [|slave slaves IH]; intros u done.
  - by rewrite app_nil_r.
  - cbn [foldl fmap list_fmap]. unfold preset_to_slave at 2.
    destruct (AudioUnitSetProperty (mUnit slave) _ _) as [r us] eqn:Es.
    rewrite IH, <- app_assoc. cbn [app]. unfold slave_with_preset at 2.
    by rewrite Es.
Qed.

(** X9.  When the blob decodes, [LoadPreset] succeeds exactly when the
    master's unit accepts the class info.  It then hands the same class
    info to every slave, keeps each slave whether or not its unit
    accepted it, and never writes to the store; when the master's unit
    refuses, no slave is touched. *)
Theorem LoadPreset_blob_reaches_slaves (e : AudioUnitEffect) (h : Host)
    (group : wxString) (content : CFPropertyListRef) :
  GetPrivateConfig h group (wxT "Parameters") = None ->
  decoded_content h group = Some content ->
  let accepted :=
    negb (failed (fst (AudioUnitSetProperty (mUnit e)
                         (kAudioUnitProperty_ClassInfo content)
                         kAudioUnitScope_Global))) in
  let '(ok, e', h') := LoadPreset e h group in
  ok = accepted /\ h' = h /\
  mSlaves e' =
    (if accepted then slave_with_preset content <$> mSlaves e
     else mSlaves e).
Proof.
  intros Hlegacy Hsome. unfold LoadPreset. rewrite Hlegacy.
  unfold decoded_content in Hsome. unfold LoadPreset_blob.
  destruct (GetPrivateConfig h group PRESET_KEY) as [parms|]; [|done].
  cbn [mbind option_bind] in Hsome.
  destruct (length (wxBase64Decode parms) =? 0)%nat; [done|].
  destruct (CFDataCreateWithBytesNoCopy _) as [data|]; [|done].
  cbn [mbind option_bind] in Hsome. rewrite Hsome.
  destruct (AudioUnitSetProperty (mUnit e) _ _) as [result u].
  cbn [fst]. destruct (failed result); cbn [negb].
  - by destruct e.
  - pose proof (presets_to_slaves content
                  (mSlaves (set_mUnit (set_mUnit e u)
                              (AUParameterListenerNotify
                                 (mUnit (set_mUnit e u)) None)))
                  [] (mUnit (set_mUnit (set_mUnit e u)
                              (AUParameterListenerNotify
                                 (mUnit (set_mUnit e u)) None))))
      as Hslaves.
    destruct (foldl _ _ _) as [u' slaves]. cbn [snd] in Hslaves.
    subst slaves. by destruct e.
Qed.

(** X10.  When the serialised class state is not empty, [SavePreset]
    succeeds exactly when the store accepts the value, and what it
    stores under ["Data"] decodes to the serialised bytes: a later load
    hands CoreFoundation exactly the bytes that were saved. *)
Theorem SavePreset_stores_the_state (e : AudioUnitEffect) (h : Host)
    (group : wxString) (data : list byte) :
  stored_values_are_found ->
  base64_round_trip ->
  serialized_state e group = Some data ->
  (0 < N.of_nat (length data) < 2 ^ 31)%N ->
  let '(ok, _, h') := SavePreset e h group in
  ok = fst (SetPrivateConfig h group PRESET_KEY (wxBase64Encode data)) /\
  (ok = true ->
     wxBase64Decode <$> GetPrivateConfig h' group PRESET_KEY = Some data /\
     decoded_content h' group =
       (d ← CFDataCreateWithBytesNoCopy data; CFPropertyListCreateWithData d)).
Proof.
  intros Hstore Hcodec Hdata Hlen.
  unfold serialized_state in Hdata. unfold SavePreset.
  destruct (AudioUnitSetProperty _ _ _) as [r1 u1].
  cbn [snd mUnit set_mUnit] in *.
  destruct (GetProperty_ClassInfo u1) as [r2 content].
  cbn [snd] in Hdata. rewrite Hdata.
  assert (Hsmall : wrap32 (N.of_nat (length data)) = N.of_nat (length data)).
  { unfold wrap32. apply N.mod_small.
    assert (2 ^ 31 < 2 ^ 32)%N by done. lia. }
  rewrite Hsmall.
  destruct (N.eqb_spec (N.of_nat (length data)) 0) as [Hz|_]; [lia|].
  cbn [negb]. rewrite Nat2N.id, take_ge by done.
  pose proof (Hstore h group PRESET_KEY (wxBase64Encode data)) as Hfound.
  destruct (SetPrivateConfig h group PRESET_KEY (wxBase64Encode data))
    as [ok h'].
  cbn [fst snd] in *. destruct ok; cbn [negb]; [|by split].
  split; [done|]. intros _. rewrite (Hfound eq_refl).
  cbn [fmap option_fmap option_map]. rewrite Hcodec. split; [done|].
  unfold decoded_content. rewrite (Hfound eq_refl). cbn [mbind option_bind].
  rewrite Hcodec.
  destruct (Nat.eqb_spec (length data) 0); [lia|done].
Qed.
End PresetsMore.

Section PresetsMoreExamples.
Import Toy AudioUnitEffect Sessions PresetStore.

Lemma LoadPreset_nothing_to_load_witness :
  LoadPreset (effect_of plain_unit true) empty_store "preset"%string
  = (false, effect_of plain_unit true, empty_store).
Proof.
  apply (LoadPreset_nothing_to_load (effect_of plain_unit true) empty_store
           "preset"%string); reflexivity.
Defined.

Lemma toy_base64_round_trip : base64_round_trip.
Proof. intros bytes. simpl. apply String.list_byte_of_string_of_list_byte. Qed.

Lemma LoadPreset_blob_reaches_slaves_witness :
  let '(ok, e', h') := LoadPreset master_effect saved_store "preset"%string in
  ok = true /\ h' = saved_store /\
  mSlaves e' =
    slave_with_preset (String.list_byte_of_string "state")
      <$> mSlaves master_effect.
Proof.
  apply (LoadPreset_blob_reaches_slaves master_effect saved_store
           "preset"%string (String.list_byte_of_string "state"));
    reflexivity.
Defined.

Lemma SavePreset_stores_the_state_witness :
  let '(ok, _, h') :=
    SavePreset (effect_of stateful_unit true) empty_store "preset"%string in
  ok = true /\
  (ok = true ->
     wxBase64Decode <$> GetPrivateConfig h' "preset"%string PRESET_KEY
     = Some (String.list_byte_of_string "state") /\
     decoded_content h' "preset"%string =
       (d ← CFDataCreateWithBytesNoCopy (String.list_byte_of_string "state");
        CFPropertyListCreateWithData d)).
Proof.
  apply (SavePreset_stores_the_state (effect_of stateful_unit true)
           empty_store "preset"%string (String.list_byte_of_string "state")
           toy_stored_values_are_found toy_base64_round_trip);
    [reflexivity | vm_compute; split; reflexivity].
Defined.
End PresetsMoreExamples.

(** ** Factory presets, copied state and notifications *)

Section FactoryPresets.
Context `{AudioUnitSDK} `{!EffectHostInterface} `{!FactoryPresetsSDK}.
Import AudioUnitEffect AudioUnitEffectLifecycle Sessions PresetStore.

(** X11.  [LoadFactoryPreset] checks its index against the presets that
    [GetFactoryPresets] lists: a negative index, an index past the last
    preset, or any index when the list cannot be read, gives false and
    leaves the effect as it was; otherwise the preset set on the unit
    carries the name listed at that index, and the result tells whether
    the unit accepted it. *)
Theorem LoadFactoryPreset_index (e : AudioUnitEffect) (id : Z) :
  match (if (0 <=? id)%Z then GetFactoryPresets e !! Z.to_nat id else None) with
  | None => LoadFactoryPreset e id = (false, e)
  | Some name =>
      exists number,
        let '(result, u) :=
          AudioUnitSetProperty (mUnit e)
            (kAudioUnitProperty_PresentPreset number name)
            kAudioUnitScope_Global in
        LoadFactoryPreset e id =
        (negb (failed result),
         set_mUnit e (if failed result then u
                      else AUParameterListenerNotify u None))
  end.
Proof.
  unfold GetFactoryPresets, LoadFactoryPreset.
  destruct (GetProperty_FactoryPresets (mUnit e)) as [result array].
  destruct (failed result).
  { destruct (0 <=? id)%Z; [by rewrite lookup_nil|done]. }
  destruct (Z.leb_spec 0 id) as [Hpos|Hneg].
  - rewrite (proj2 (Z.ltb_ge id 0) Hpos). cbn [orb].
    rewrite list_lookup_fmap.
    destruct (Z.leb_spec (Z.of_nat (length array)) id) as [Hpast|Hin].
    + rewrite lookup_ge_None_2 by lia. done.
    + destruct (lookup_lt_is_Some_2 array (Z.to_nat id)) as [preset Hp]; [lia|].
      rewrite Hp. cbn [fmap option_fmap option_map].
      exists (presetNumber preset).
      by destruct (AudioUnitSetProperty _ _ _).
  - by rewrite (proj2 (Z.ltb_lt id 0) Hneg).
Qed.

(** X12.  On a component that gives back the class info it accepted, a
    successful [CopyParameters] leaves the destination with the class
    info of the source; and when the class info of the source cannot be
    read, the destination is not touched. *)
Theorem CopyParameters_copies_state (srcUnit dstUnit : AudioUnit) :
  class_info_is_read_back ->
  let '(ok, dstUnit') := CopyParameters srcUnit dstUnit in
  (ok = true ->
     snd (GetProperty_ClassInfo dstUnit') = snd (GetProperty_ClassInfo srcUnit))
  /\ (failed (fst (GetProperty_ClassInfo srcUnit)) = true ->
        ok = false /\ dstUnit' = dstUnit).
Proof.
  intros Hback. unfold CopyParameters.
  destruct (GetProperty_ClassInfo srcUnit) as [r1 content]. cbn [fst snd].
  destruct (failed r1); [by split|].
  pose proof (Hback dstUnit content) as Hc.
  destruct (AudioUnitSetProperty dstUnit _ _) as [r2 u]. cbn [fst snd] in Hc.
  destruct (failed r2); [by split|].
  split; [|done]. intros _. by apply Hc.
Qed.

(** X13.  A parameter notification that reaches the master is passed
    to every slave and to nothing else: each slave's unit is sent the
    same parameter id and value, no slave is added or dropped, and the
    master's own unit is not set. *)
Theorem EventListener_reaches_every_slave (e : AudioUnitEffect)
    (inEvent : AudioUnitEvent) (value : Float32) :
  is_property_change inEvent = false ->
  let e' := EventListener false e inEvent value in
  mUnit e' = mUnit e /\
  length (mSlaves e') = length (mSlaves e) /\
  forall i slave, mSlaves e !! i = Some slave ->
    mSlaves e' !! i =
    Some (set_mUnit slave
            (snd (AudioUnitSetParameter (mUnit slave) (mParameterID inEvent)
                    value))).
Proof.
  intros Hparam. unfold EventListener. rewrite Hparam. cbn.
  split; [done|]. split; [by rewrite length_fmap|].
  intros i slave Hi. rewrite list_lookup_fmap, Hi. cbn.
  unfold EventListener_slave. by rewrite Hparam.
Qed.

(** X14.  A property notification, the latency change included, does
    not re-arm the latency: in a session whose latency was already
    reported, [GetLatency] still returns zero after the notification. *)
Theorem latency_event_does_not_rearm (e e1 : AudioUnitEffect)
    (is_slave : bool) (inEvent : AudioUnitEvent) (value : Float32) :
  ProcessInitialize e = Some (true, e1) ->
  is_property_change inEvent = true ->
  fst (GetLatency
         (EventListener is_slave (snd (GetLatency e1)) inEvent value))
  = 0%Z.
Proof.
  intros Hinit Hprop. apply ProcessInitialize_resets_latency in Hinit.
  unfold EventListener. rewrite Hprop.
  destruct (mUseLatency e1) eqn:Huse.
  - rewrite (GetLatency_first e1) by done. cbn [snd].
    rewrite GetLatency_zero; [done|]. right. reflexivity.
  - rewrite (GetLatency_zero e1) by (by left). cbn [snd].
    rewrite GetLatency_zero; [done|]. by left.
Qed.
End FactoryPresets.

Section NotificationExamples.
Import Toy AudioUnitEffect AudioUnitEffectLifecycle Sessions PresetStore.

Example LoadFactoryPreset_past_the_end :
  LoadFactoryPreset (effect_of plain_unit true) 2
  = (false, effect_of plain_unit true).
Proof. vm_compute. reflexivity. Qed.

Lemma toy_class_info_is_read_back : class_info_is_read_back.
Proof. intros u content _. reflexivity. Qed.

Lemma CopyParameters_copies_state_witness :
  let '(ok, dstUnit') := CopyParameters stateful_unit plain_unit in
  (ok = true ->
     snd (GetProperty_ClassInfo dstUnit')
     = snd (GetProperty_ClassInfo stateful_unit))
  /\ (failed (fst (GetProperty_ClassInfo stateful_unit)) = true ->
        ok = false /\ dstUnit' = plain_unit).
Proof.
  exact (CopyParameters_copies_state stateful_unit plain_unit
           toy_class_info_is_read_back).
Defined.

Lemma EventListener_reaches_every_slave_witness :
  mUnit (EventListener false master_effect gain_event 7%Z)
  = mUnit master_effect /\
  length (mSlaves (EventListener false master_effect gain_event 7%Z))
  = length (mSlaves master_effect) /\
  forall i slave, mSlaves master_effect !! i = Some slave ->
    mSlaves (EventListener false master_effect gain_event 7%Z) !! i =
    Some (set_mUnit slave
            (snd (AudioUnitSetParameter (mUnit slave)
                    (mParameterID gain_event) 7%Z))).
Proof.
  apply (EventListener_reaches_every_slave master_effect gain_event 7%Z).
  reflexivity.
Defined.

Lemma latency_event_does_not_rearm_witness :
  fst (GetLatency
         (EventListener false (snd (GetLatency slow_session))
            latency_event 0%Z))
  = 0%Z.
Proof.
  apply (latency_event_does_not_rearm (effect_of slow_unit true) slow_session
           false latency_event 0%Z slow_session_begins).
  reflexivity.
Defined.
End NotificationExamples.

(** ** More on the settings cache and the blob *)

Section WrapperMore.
Context `{AudioUnitSDK}.
Import AudioUnitWrapper AudioUnitWrapperBlob ParameterStore.

Lemma store_loop_nothing (settings : AudioUnitEffectSettings)
    (ids : list AudioUnitParameterID) (u : AudioUnit) :
  (forall id, id ∈ ids -> values settings !! id = None) ->
  ForEachParameter_loop (StoreSettings_visitor settings) ids (u, tt) = (u, tt).
Proof.
  induction ids as [|id ids IH]; intros Hnone; [done|].
  cbn [ForEachParameter_loop fst]. unfold StoreSettings_visitor at 1.
  rewrite (Hnone id) by apply list_elem_of_here.
  assert (Hrest : forall id', id' ∈ ids -> values settings !! id' = None)
    by (intros id' Hin; apply Hnone; by apply list_elem_of_further).
  destruct (mName (ParameterInfo_ctor u id)); by rewrite IH.
Qed.

(** X15.  [StoreSettings] with a cache that holds none of the listed
    parameters, the empty cache included, makes no call that can change
    the component: the wrapper comes back exactly as it was. *)
Theorem StoreSettings_nothing_cached (w : AudioUnitWrapper)
    (settings : AudioUnitEffectSettings) :
  (forall id, id ∈ listed_ids w -> values settings !! id = None) ->
  StoreSettings w settings = (true, w).
Proof.
  intros Hnone. unfold StoreSettings, ForEachParameter.
  unfold listed_ids in Hnone. destruct w as [u [ids|]]; cbn in *.
  - by rewrite store_loop_nothing.
  - done.
Qed.

(** X16.  [FetchSettings] into an empty cache gives exactly the
    parameters that can be read: an id is in the map when it is listed,
    its info can be read and its query succeeds, and it then holds the
    current value; a listed parameter that cannot be read is absent
    from the map, not present with a zero. *)
Theorem FetchSettings_empty_cache (w : AudioUnitWrapper)
    (k : AudioUnitParameterID) :
  values (snd (FetchSettings w (mkSettings ∅))) !! k
  = fetched (mUnit w) (listed_ids w) k.
Proof.
  destruct (FetchSettings_lookup w (mkSettings ∅)) as (cache & Hrun & Hc).
  rewrite Hrun. cbn [snd]. rewrite Hc. cbn [values].
  rewrite lookup_empty. by destruct (fetched _ _ _).
Qed.


(** X18.  [MakeBlob] returns no data when the preset name cannot be
    set, the class info cannot be read or the conversion fails, each
    with its own message; when it returns data, the message is empty
    exactly when the data is not, and empty data comes with the message
    that says so. *)
Theorem MakeBlob_message (w : AudioUnitWrapper) (cfname : wxString)
    (binary : bool) :
  let '(data, message, w') := MakeBlob w cfname binary in
  mParameters w' = mParameters w /\
  match data with
  | None =>
      message = Failed_to_set_preset_name \/
      message = Failed_to_retrieve_preset_content \/
      message = Failed_to_convert_property_list_to_XML_data
  | Some bytes =>
      message = (if (length bytes =? 0)%nat
                 then XML_data_is_empty_after_conversion else no_message)
  end.
Proof.
  unfold MakeBlob.
  destruct (AudioUnitSetProperty (mUnit w) _ _) as [r1 u].
  destruct (failed r1); [by cbn; auto|]. cbn [mUnit with_unit].
  destruct (GetProperty_ClassInfo u) as [r2 content].
  destruct (failed r2); [by cbn; auto|].
  destruct (CFPropertyListCreateData content _) as [data|]; [|by cbn; auto].
  destruct (length data =? 0)%nat eqn:El; cbn; rewrite El; by split.
Qed.
End WrapperMore.

Section WrapperMoreExamples.
Import Toy AudioUnitWrapper ParameterStore.

Lemma StoreSettings_nothing_cached_witness :
  StoreSettings three_wrapper unlisted_settings = (true, three_wrapper).
Proof.
  apply (StoreSettings_nothing_cached three_wrapper unlisted_settings).
  intros id Hid. cbn in Hid.
  repeat (apply elem_of_cons in Hid as [->|Hid]; [reflexivity|]).
  by apply elem_of_nil in Hid.
Defined.

(** An unreadable listed parameter (6) is absent after a fetch into an
    empty cache. *)
Example FetchSettings_fresh :
  FetchSettings three_wrapper (mkSettings ∅)
  = (true, mkSettings {[ 5 := 1%Z; 8 := 3%Z ]}).
Proof. vm_compute. reflexivity. Qed.
End WrapperMoreExamples.

(** ** More on the four-character codes *)

Section OSTypeMore.
Context `{WxStrings}.
Import AudioUnitEffectsModule.

Lemma byte_of_N_ext (a b : N) : a mod 256 = b mod 256 -> byte_of_N a = byte_of_N b.
Proof. intros E. unfold byte_of_N. by rewrite E. Qed.

(** X19.  The text of a code is its bytes from the most significant to
    the least: [FromOSType] hands the string class the byte at bits
    24-31 first and the byte at bits 0-7 last. *)
Theorem FromOSType_most_significant_first (type : OSType) :
FromOSType type =
wxString_FromUTF8
  [ byte_of_N (N.shiftr type 24); byte_of_N (N.shiftr type 16);
    byte_of_N (N.shiftr type 8); byte_of_N type ].
Proof.
  unfold FromOSType, object_bytes. f_equal.
  f_equal; [|f_equal; [|f_equal; [|f_equal]]]; apply byte_of_N_ext;
    unfold swap_bytes; word_masks;
    apply N.bits_inj; intros n;
    (destruct (N.lt_ge_cases n 8);
     [ bit_rules; apply (f_equal (N.testbit _)); lia
     | rewrite !(N.land_spec _ (N.ones 8)), !(N.ones_spec_high 8 n) by lia;
       by rewrite ?andb_false_r ]).
Qed.

(** X20.  [ToOSType] reads the first four bytes of the text and nothing
    after them; a text of three bytes is completed by the terminating
    NUL of its buffer. *)
Theorem ToOSType_first_four_bytes (type : wxString) (b0 b1 b2 : byte)
    (rest : list byte) :
  wxString_ToUTF8 type = b0 :: b1 :: b2 :: rest ->
  ToOSType type = Some (pack_bytes b0 b1 b2 (hd "000"%byte rest)).
Proof.
  intros Hbytes. unfold ToOSType, wxCharBuffer_data. rewrite Hbytes.
  by destruct rest.
Qed.
End OSTypeMore.

Section OSTypeMoreExamples.
Import Toy AudioUnitEffectsModule.

Example FromOSType_aufx :
FromOSType (H := Toy.strings) 0x61756678 = "aufx"%string.
Proof. vm_compute. reflexivity. Qed.

Lemma ToOSType_first_four_bytes_witness :
  ToOSType (H := Toy.strings) "delyed"%string
  = Some (pack_bytes "d"%byte "e"%byte "l"%byte "y"%byte).
Proof.
  apply (ToOSType_first_four_bytes (H := Toy.strings) "delyed"%string "d"%byte "e"%byte "l"%byte
           ["y"; "e"; "d"]%byte).
  reflexivity.
Defined.
End OSTypeMoreExamples.

(** ** The synthesised parameter names *)

Section parameter_names.
Import Stdlib.Strings.Ascii.
Import ParameterNames.

Lemma hex_digits_of_uint (d : Hexadecimal.uint) :
  Forall (fun c => is_hex_digit c = true)
    (String.list_ascii_of_string
       (HexadecimalString.NilEmpty.string_of_uint d)).
Proof.
  induction d; cbn [HexadecimalString.NilEmpty.string_of_uint
                    String.list_ascii_of_string];
    try constructor; try done.
Qed.

Lemma hex_digits (n : N) : Forall (fun c => is_hex_digit c = true) (hex n).
Proof. apply hex_digits_of_uint. Qed.

Lemma hex_inj (n m : N) : hex n = hex m -> n = m.
Proof.
  unfold hex. intros E.
  apply HexadecimalN.Unsigned.to_uint_inj.
  apply (f_equal String.string_of_list_ascii) in E.
  rewrite !String.string_of_list_ascii_of_string in E.
  apply (f_equal HexadecimalString.NilEmpty.uint_of_string) in E.
  rewrite !HexadecimalString.NilEmpty.usu in E.
  congruence.
Qed.

(** Two texts that end, after a character that is no digit, in runs of
    digits: equal texts have equal runs. *)
Lemma digits_after_mark (p1 p2 : list ascii) (c1 c2 : ascii)
    (h1 h2 : list ascii) :
  is_hex_digit c1 = false -> is_hex_digit c2 = false ->
  Forall (fun c => is_hex_digit c = true) h1 ->
  Forall (fun c => is_hex_digit c = true) h2 ->
  (p1 ++ [c1]) ++ h1 = (p2 ++ [c2]) ++ h2 ->
  h1 = h2.
Proof.
  intros Hc1 Hc2. revert h2.
  induction h1 as [|x h1 IH] using rev_ind; intros h2 H1 H2 E.
  - revert H2 E. induction h2 as [|y h2 _] using rev_ind; intros H2 E; [done|].
    rewrite app_nil_r, app_assoc in E.
    apply app_inj_tail in E as [_ ->].
    rewrite Forall_app, Forall_singleton in H2. destruct H2. congruence.
  - revert H2 E. induction h2 as [|y h2 _] using rev_ind; intros H2 E.
    + rewrite app_nil_r, app_assoc in E.
      apply app_inj_tail in E as [_ <-].
      rewrite Forall_app, Forall_singleton in H1. destruct H1. congruence.
    + rewrite !(app_assoc _ _ [_]) in E.
      apply app_inj_tail in E as [E ->].
      rewrite Forall_app in H1, H2.
      destruct H1 as [H1 _], H2 as [H2 _].
      by rewrite (IH h2 H1 H2 E).
Qed.

(** Every name ends in a mark, the digits of the parameter id and the
    closing bracket. *)
Lemma extended_name_shape (name : list ascii) (parmID : AudioUnitParameterID)
    (clump : option Clump) :
  exists (p : list ascii) (c : ascii),
    is_hex_digit c = false /\
    extended_name name parmID clump = ((p ++ [c]) ++ hex parmID) ++ [idEnd].
Proof.
  assert (exists p c, is_hex_digit c = false /\
            bracketed_name name parmID = ((p ++ [c]) ++ hex parmID) ++ [idEnd])
    as (p & c & Hc & E).
  { unfold bracketed_name. destruct name as [|a name].
    - by exists [], idBeg.
    - exists ([idBeg] ++
              Replace idEnd underscore
                (Replace idSep underscore
                   (Replace idBeg underscore (a :: name)))), idSep.
      split; [done|]. unfold sanitized.
      by rewrite <- !app_assoc. }
  unfold extended_name. cbv zeta. rewrite E.
  destruct clump as [clump|]; [|by exists p, c].
  eexists (_ ++ p), c. split; [done|].
  rewrite !app_assoc. reflexivity.
Qed.

(** X21.  The synthesised names tell parameters apart: whatever names the
    component gives to its parameters and clumps, two parameters with the
    same extended name have the same parameter id. *)
Theorem extended_name_determines_id (name1 name2 : list ascii)
    (id1 id2 : AudioUnitParameterID) (clump1 clump2 : option Clump) :
  extended_name name1 id1 clump1 = extended_name name2 id2 clump2 ->
  id1 = id2.
Proof.
  intros E.
  destruct (extended_name_shape name1 id1 clump1) as (p1 & c1 & H1 & E1).
  destruct (extended_name_shape name2 id2 clump2) as (p2 & c2 & H2 & E2).
  rewrite E1, E2 in E. apply app_inj_tail in E as [E _].
  apply hex_inj.
  apply (digits_after_mark p1 p2 c1 c2);
    [exact H1|exact H2|apply hex_digits|apply hex_digits|exact E].
Qed.

Lemma extended_name_determines_id_witness :
  extended_name (String.list_ascii_of_string "In<") 10%N None =
  extended_name (String.list_ascii_of_string "In>") 10%N None /\
  (10 = 10)%N.
Proof.
  split; [vm_compute; reflexivity|].
  apply (extended_name_determines_id
           (String.list_ascii_of_string "In<")
           (String.list_ascii_of_string "In>") 10%N 10%N None None).
  vm_compute. reflexivity.
Defined.

Lemma Replace_removes (old new : ascii) (s : list ascii) :
  old <> new -> old ∉ Replace old new s.
Proof.
  intros Hne. unfold Replace. induction s as [|c s IH]; cbn.
  - apply not_elem_of_nil.
  - apply not_elem_of_cons. split; [|exact IH].
    destruct (Ascii.eqb c old) eqn:Ec; [exact Hne|].
    apply Ascii.eqb_neq in Ec. congruence.
Qed.

Lemma Replace_keeps_out (old new c : ascii) (s : list ascii) :
  c <> new -> c ∉ s -> c ∉ Replace old new s.
Proof.
  intros Hne. unfold Replace. induction s as [|a s IH]; cbn.
  - done.
  - intros Hc. apply not_elem_of_cons in Hc as [Hca Hc].
    apply not_elem_of_cons. split; [|by apply IH].
    by destruct (Ascii.eqb a old).
Qed.

Lemma hex_no_bracket (n : N) (c : ascii) :
  is_hex_digit c = false -> c ∉ hex n.
Proof.
  intros Hc Hin. pose proof (hex_digits n) as H.
  rewrite Forall_forall in H. apply H in Hin. congruence.
Qed.

Lemma sanitized_no_bracket (name : list ascii) :
  (idBeg ∉ sanitized name) /\ (idEnd ∉ sanitized name).
Proof.
  unfold sanitized. rewrite !not_elem_of_app. split_and!.
  - do 2 (apply Replace_keeps_out; [done|]).
    apply (Replace_removes idBeg underscore). discriminate.
  - apply not_elem_of_cons. split; [discriminate|apply not_elem_of_nil].
  - apply (Replace_removes idEnd underscore). discriminate.
  - apply not_elem_of_cons. split; [discriminate|apply not_elem_of_nil].
Qed.

(** X22.  Without a clump, the brackets of a name are its first and its
    last character and nothing in between: a [<] or [>] in the name the
    component gives is replaced, so the brackets delimit the name. *)
Theorem bracketed_name_delimited (name : list ascii)
    (parmID : AudioUnitParameterID) :
  exists middle : list ascii,
    extended_name name parmID None = [idBeg] ++ middle ++ [idEnd] /\
    (idBeg ∉ middle) /\ (idEnd ∉ middle).
Proof.
  unfold extended_name, bracketed_name. cbv zeta.
  eexists (_ ++ hex parmID). rewrite <- app_assoc. split; [reflexivity|].
  assert (idBeg ∉ hex parmID) as Hb by (by apply hex_no_bracket).
  assert (idEnd ∉ hex parmID) as He by (by apply hex_no_bracket).
  rewrite !not_elem_of_app.
  destruct name as [|a name].
  - split_and!; solve [apply not_elem_of_nil | assumption].
  - destruct (sanitized_no_bracket (a :: name)). by split_and!.
Qed.
End parameter_names.
